(** * youtube-transcript-analyzer: transcript cleaning, name correction
      and the roster fetcher of [5.py], embedded in Rocq.

    Python [str] values are sequences of Unicode code points; the functions
    of the standard library that the program calls on them ([str.strip],
    [str.split], [str.join], [str.istitle], [re.sub]) are written out over
    lists of code points.  Exceptions are values of a small error monad. *)

From Stdlib Require Import List NArith ZArith Bool Lia.
From Stdlib Require Import Ascii String DecimalString.
Import ListNotations.

#[local] Set Warnings "-register-all".

(** ** Strings *)

Definition codepoint := N.
Definition pystr := list codepoint.

(** A Rocq string literal read as a Python string (code points below 256). *)
Definition str_of (s : string) : pystr :=
  List.map N_of_ascii (list_ascii_of_string s).

Definition SPACE : codepoint := 0x20%N.

(** [Py_UNICODE_ISSPACE]: the predicate shared by [str.strip()],
    [str.split()] and the pattern [\s] of a [str] regular expression. *)
Definition Py_UNICODE_ISSPACE (c : codepoint) : bool :=
  (((0x09 <=? c) && (c <=? 0x0D)) || ((0x1C <=? c) && (c <=? 0x20))
   || (c =? 0x85) || (c =? 0xA0) || (c =? 0x1680)
   || ((0x2000 <=? c) && (c <=? 0x200A))
   || (c =? 0x2028) || (c =? 0x2029) || (c =? 0x202F) || (c =? 0x205F)
   || (c =? 0x3000))%N.

(** [s.lstrip()] and [s.rstrip()] with no argument; [s.strip()] does both. *)
Fixpoint str_lstrip (s : pystr) : pystr :=
  match s with
  | [] => []
  | c :: t => if Py_UNICODE_ISSPACE c then str_lstrip t else s
  end.

Fixpoint str_rstrip (s : pystr) : pystr :=
  match s with
  | [] => []
  | c :: t =>
      if Py_UNICODE_ISSPACE c && forallb Py_UNICODE_ISSPACE t then []
      else c :: str_rstrip t
  end.

Definition str_strip (s : pystr) : pystr := str_rstrip (str_lstrip s).

(** [re.sub(r'\s+', ' ', s)]: every maximal run of whitespace becomes one
    U+0020.  [in_run] records that the previous character was whitespace. *)
Fixpoint sub_ws_runs (in_run : bool) (s : pystr) : pystr :=
  match s with
  | [] => []
  | c :: t =>
      if Py_UNICODE_ISSPACE c
      then (if in_run then sub_ws_runs true t else SPACE :: sub_ws_runs true t)
      else c :: sub_ws_runs false t
  end.

Definition is_ascii (c : codepoint) : bool := (c <=? 0x7F)%N.

(** [re.sub(r'[^\x00-\x7F]+', '', s)]: every character above U+007F goes. *)
Definition sub_non_ascii (s : pystr) : pystr := filter is_ascii s.

(** [clean_transcript], 5.py lines 214-218. *)
Definition clean_transcript (text : pystr) : pystr :=
  let text := str_strip text in
  let text := sub_ws_runs false text in
  let text := sub_non_ascii text in
  text.

(** [s.split()]: the maximal runs of non-whitespace characters, in order.
    [split_scan s] is the word that starts at the head of [s] (empty when
    [s] starts with whitespace) and the words after it. *)
Definition push_word (w : pystr) (ws : list pystr) : list pystr :=
  match w with [] => ws | _ :: _ => w :: ws end.

Fixpoint split_scan (s : pystr) : pystr * list pystr :=
  match s with
  | [] => ([], [])
  | c :: t =>
      let (w, ws) := split_scan t in
      if Py_UNICODE_ISSPACE c then ([], push_word w ws) else (c :: w, ws)
  end.

Definition str_split (s : pystr) : list pystr :=
  let (w, ws) := split_scan s in push_word w ws.

(** [sep.join(parts)]. *)
Fixpoint str_join (sep : pystr) (parts : list pystr) : pystr :=
  match parts with
  | [] => []
  | [w] => w
  | w :: rest => w ++ sep ++ str_join sep rest
  end.

(** ** Whitespace shape of a string *)

Definition starts_with_ws (s : pystr) : bool :=
  match s with [] => false | c :: _ => Py_UNICODE_ISSPACE c end.

Fixpoint ends_with_ws (s : pystr) : bool :=
  match s with
  | [] => false
  | [c] => Py_UNICODE_ISSPACE c
  | _ :: t => ends_with_ws t
  end.

(** Two adjacent characters that both satisfy [p]. *)
Fixpoint has_run (p : codepoint -> bool) (s : pystr) : bool :=
  match s with
  | a :: ((b :: _) as t) => (p a && p b) || has_run p t
  | _ => false
  end.

Definition is_space (c : codepoint) : bool := (c =? SPACE)%N.

(** A word as [str.split] yields them: not empty, no whitespace inside. *)
Definition is_word (w : pystr) : Prop :=
  w <> [] /\ Forall (fun c => Py_UNICODE_ISSPACE c = false) w.

(** [tidy p w]: [w] is not empty, neither starts nor ends with whitespace,
    and has no two adjacent characters satisfying [p]. *)
Definition tidy (p : codepoint -> bool) (w : pystr) : Prop :=
  w <> [] /\ starts_with_ws w = false /\ ends_with_ws w = false
  /\ has_run p w = false.

Definition printable_ascii (c : codepoint) : bool :=
  ((0x20 <=? c) && (c <=? 0x7E))%N.

(** The characters of [s] above U+007F are all whitespace. *)
Definition ascii_words (s : pystr) : bool :=
  forallb (fun c => Py_UNICODE_ISSPACE c || is_ascii c) s.

Fixpoint str_eqb (a b : pystr) : bool :=
  match a, b with
  | [], [] => true
  | x :: a', y :: b' => (x =? y)%N && str_eqb a' b'
  | _, _ => false
  end.

(** Truth value of a [str]: only the empty string is false. *)
Definition str_truthy (s : pystr) : bool :=
  match s with [] => false | _ :: _ => true end.

(** ** Exceptions *)

Inductive exn : Type :=
| TypeError | KeyError | IndexError | ValueError
| JSONDecodeError | RequestException
| OverflowError | UnicodeDecodeError | OSError | RecursionError.

Inductive result (A : Type) : Type :=
| Ok (a : A)
| Raise (e : exn).

Arguments Ok {A} a.
Arguments Raise {A} e.

Definition bind {A B : Type} (c : result A) (k : A -> result B) : result B :=
  match c with
  | Ok a => k a
  | Raise e => Raise e
  end.

Notation "x <- c ;; k" := (bind c (fun x => k))
  (at level 61, c at next level, right associativity).

(** ** Case of characters and [str.istitle] *)

(** The three case predicates of the Unicode database that [str.istitle]
    consults.  The database is not part of the program: the corrector is
    stated over any table. *)
Record case_table : Type := {
  Py_UNICODE_ISUPPER : codepoint -> bool;
  Py_UNICODE_ISLOWER : codepoint -> bool;
  Py_UNICODE_ISTITLE : codepoint -> bool
}.

(** The table on Basic Latin, where A-Z are uppercase, a-z lowercase and
    nothing is titlecase; it leaves every other code point uncased.  The
    examples below are ASCII strings evaluated with it. *)
Definition basic_latin : case_table := {|
  Py_UNICODE_ISUPPER := fun c => ((0x41 <=? c) && (c <=? 0x5A))%N;
  Py_UNICODE_ISLOWER := fun c => ((0x61 <=? c) && (c <=? 0x7A))%N;
  Py_UNICODE_ISTITLE := fun _ => false
|}.

Section Corrector.

Variable U : case_table.

(** The similarity scorer [fuzz.token_set_ratio] as [process.extractOne]
    applies it to the query and one choice (an integer score). *)
Variable token_set_ratio : pystr -> pystr -> Z.

(** [s.istitle()]: uppercase and titlecase characters may only follow
    uncased ones, lowercase characters only cased ones, and there is at
    least one cased character. *)
Fixpoint istitle_scan (previous_is_cased cased : bool) (s : pystr) : bool :=
  match s with
  | [] => cased
  | ch :: t =>
      if Py_UNICODE_ISUPPER U ch || Py_UNICODE_ISTITLE U ch then
        if previous_is_cased then false else istitle_scan true true t
      else if Py_UNICODE_ISLOWER U ch then
        if previous_is_cased then istitle_scan true true t else false
      else istitle_scan false cased t
  end.

Definition str_istitle (s : pystr) : bool := istitle_scan false false s.


(** [process.extractWithoutOrder] with [score_cutoff = 0]: each choice
    with its score, those below the cutoff left out. *)
Definition extractWithoutOrder (query : pystr) (choices : list pystr)
  : list (pystr * Z) :=
  filter (fun cs => (0 <=? snd cs)%Z)
         (List.map (fun choice => (choice, token_set_ratio query choice)) choices).

(** [max(best_list, key=lambda i: i[1])]: the first pair of maximal score. *)
Fixpoint max_by_score (best : pystr * Z) (l : list (pystr * Z)) : pystr * Z :=
  match l with
  | [] => best
  | x :: t => max_by_score (if (snd best <? snd x)%Z then x else best) t
  end.

(** [process.extractOne]: [max] raises [ValueError] on no candidate, and
    [extractOne] returns [None] then. *)
Definition extractOne (query : pystr) (choices : list pystr)
  : option (pystr * Z) :=
  match extractWithoutOrder query choices with
  | [] => None
  | x :: t => Some (max_by_score x t)
  end.

(** [find_closest_player_name], 5.py lines 184-189.  Unpacking [None] into
    [best_match, score] raises [TypeError]. *)
Definition find_closest_player_name (transcript_name : pystr)
    (player_master_list : list pystr) : result (option pystr) :=
  match extractOne transcript_name player_master_list with
  | None => Raise TypeError
  | Some (best_match, score) =>
      if (80 <=? score)%Z then Ok (Some best_match) else Ok None
  end.

(** The body of the loop of [correct_player_names], lines 224-231: the
    word that is appended to [corrected_words]. *)
Definition correct_word (word : pystr) (player_master_list : list pystr)
  : result pystr :=
  if str_istitle word then
    possible_player_name <- find_closest_player_name word player_master_list ;;
    match possible_player_name with
    | Some name => if str_truthy name then Ok name else Ok word
    | None => Ok word
    end
  else Ok word.

(** The loop, lines 222-231: [corrected_words] for [words]. *)
Fixpoint correct_words (words : list pystr) (player_master_list : list pystr)
  : result (list pystr) :=
  match words with
  | [] => Ok []
  | word :: rest =>
      w <- correct_word word player_master_list ;;
      ws <- correct_words rest player_master_list ;;
      Ok (w :: ws)
  end.

(** [correct_player_names], 5.py lines 220-232. *)
Definition correct_player_names (transcript : pystr)
    (player_master_list : list pystr) : result pystr :=
  corrected_words <- correct_words (str_split transcript) player_master_list ;;
  Ok (str_join [SPACE] corrected_words).

End Corrector.

(** A roster name with no whitespace at either end and no two adjacent
    spaces, such as "First Last". *)
Definition clean_name (name : pystr) : Prop :=
  starts_with_ws name = false /\ ends_with_ws name = false
  /\ has_run is_space name = false.

(** [best] is the first name of [roster] whose [score] is maximal:
    every name before it scores less, no name after it scores more. *)
Definition first_best (score : pystr -> Z) (roster before : list pystr)
    (best : pystr) (after : list pystr) : Prop :=
  roster = before ++ best :: after
  /\ (forall c, In c before -> (score c < score best)%Z)
  /\ (forall c, In c after -> (score c <= score best)%Z).

(** A stand-in scorer for the examples: 100 when the query, lowercased, is
    one of the whitespace-separated words of the lowercased choice (a case
    in which token-set similarity is 100 too, the query's only token being
    shared), and 0 otherwise. *)
Definition ascii_lower (c : codepoint) : codepoint :=
  if ((0x41 <=? c) && (c <=? 0x5A))%N then (c + 0x20)%N else c.

Definition shared_word_ratio (query choice : pystr) : Z :=
  if existsb (str_eqb (List.map ascii_lower query))
             (str_split (List.map ascii_lower choice))
  then 100%Z else 0%Z.

(** ** JSON values and the operations the fetcher applies to them *)

(** What [json.load] and [response.json()] return.  An object is the list
    of its items.  [JNum n] is a number in the range of a float, counted
    in whole units (timestamps count whole seconds); [JHuge n] is an
    integer beyond that range, which Python reads as an [int] that
    arithmetic with a float refuses ([OverflowError]). *)
Inductive json : Type :=
| JNull
| JBool (b : bool)
| JNum (n : Z)
| JHuge (n : Z)
| JStr (s : pystr)
| JArr (items : list json)
| JObj (fields : list (pystr * json)).

Fixpoint dict_get (key : pystr) (fields : list (pystr * json)) : option json :=
  match fields with
  | [] => None
  | (k, v) :: rest => if str_eqb key k then Some v else dict_get key rest
  end.

(** [v[key]] for a [str] key: [KeyError] on a dict without the key,
    [TypeError] on a list, a string, a number or [None]. *)
Definition getitem (v : json) (key : pystr) : result json :=
  match v with
  | JObj fields =>
      match dict_get key fields with
      | Some x => Ok x
      | None => Raise KeyError
      end
  | _ => Raise TypeError
  end.

(** [v[0]]. *)
Definition getitem0 (v : json) : result json :=
  match v with
  | JArr (x :: _) => Ok x
  | JArr [] => Raise IndexError
  | JStr (c :: _) => Ok (JStr [c])
  | JStr [] => Raise IndexError
  | JObj _ => Raise KeyError
  | _ => Raise TypeError
  end.

(** The items [for x in v] goes through: the elements of a list, the
    characters of a string, the keys of a dict. *)
Definition py_iter (v : json) : result (list json) :=
  match v with
  | JArr items => Ok items
  | JStr s => Ok (List.map (fun c => JStr [c]) s)
  | JObj fields => Ok (List.map (fun kv => JStr (fst kv)) fields)
  | _ => Raise TypeError
  end.

(** Truth value: [None], [False], zero and empty containers are false. *)
Definition truthy (v : json) : bool :=
  match v with
  | JNull => false
  | JBool b => b
  | JNum n => negb (n =? 0)%Z
  | JHuge _ => true
  | JStr s => str_truthy s
  | JArr items => match items with [] => false | _ :: _ => true end
  | JObj fields => match fields with [] => false | _ :: _ => true end
  end.

(** [v == s] for a [str] [s], and [v != 0]. *)
Definition eq_str (v : json) (s : pystr) : bool :=
  match v with JStr s' => str_eqb s' s | _ => false end.

Definition ne_zero (v : json) : bool :=
  match v with
  | JNum n => negb (n =? 0)%Z
  | JBool b => b
  | _ => true
  end.

(** [dict(zip(headers, player))]: a list or a dict is no key
    ([TypeError], unhashable); a later pair replaces an earlier one of the
    same key, so a key is looked up from the end. *)
Definition hashable (v : json) : bool :=
  match v with JArr _ | JObj _ => false | _ => true end.

Definition dict_of_pairs (pairs : list (json * json))
  : result (list (json * json)) :=
  if forallb (fun kv => hashable (fst kv)) pairs then Ok (rev pairs)
  else Raise TypeError.

Fixpoint pairs_get (key : pystr) (d : list (json * json)) : result json :=
  match d with
  | [] => Raise KeyError
  | (k, v) :: rest => if eq_str k key then Ok v else pairs_get key rest
  end.

(** ** The roster fetcher *)

Inductive cache_file : Type :=
| NoFile                    (* [os.path.exists] is false *)
| Unreadable (e : exn)      (* [open] or [json.load] raises [e]: a
                               directory, bytes that are no text, JSON
                               nested too deep *)
| BadJSON                   (* [json.load] raises [JSONDecodeError] *)
| GoodJSON (cache : json).  (* [json.load] returns [cache] *)

(** The outcome of the GET after the session's retries. *)
Inductive http_reply : Type :=
| ConnectionFailed          (* [session.get] raises *)
| StatusError               (* [raise_for_status] raises *)
| BodyNotJSON               (* [response.json()] raises *)
| Body (data : json).

(** What one call of [fetch_players] sees of the outside: the clock, the
    cache file, the answer of the network, and what pandas and the disk
    do with the values handed to them. *)
Record world : Type := {
  time_time : Z;            (* [time.time()], in seconds *)
  now_year : Z;             (* [datetime.now().year] *)
  now_month : Z;            (* [datetime.now().month] *)
  cache_state : cache_file;
  reply : http_reply;
  DataFrame_raises : json -> option exn;
                            (* what [pd.DataFrame(data)] raises, if it does *)
  to_dict_records : json -> json;
                            (* [pd.DataFrame(data).to_dict('records')] *)
  save_raises : option (exn * cache_file)
                            (* what [to_dict] or the write of [_save_cache]
                               raises, if one does, and the file it leaves *)
}.

Definition cache_duration : Z := 24 * 60 * 60.

(** [str(n)] for an [int]. *)
Definition py_str_int (n : Z) : pystr :=
  str_of (NilZero.string_of_int (Z.to_int n)).

(** [_get_current_season], 5.py lines 136-143. *)
Definition _get_current_season (year month : Z) : pystr :=
  if (10 <=? month)%Z
  then py_str_int year ++ str_of "-" ++ skipn 2 (py_str_int (year + 1))
  else py_str_int (year - 1) ++ str_of "-" ++ skipn 2 (py_str_int year).

(** The season label as the specification words it: the year, a dash and
    the last two decimal digits of the following year. *)
Definition digit (d : Z) : codepoint := (0x30 + Z.to_N d)%N.

Definition two_digit_suffix (year : Z) : pystr :=
  [digit ((year / 10) mod 10); digit (year mod 10)].

Definition spec_season_label (year month : Z) : pystr :=
  if (10 <=? month)%Z
  then py_str_int year ++ str_of "-" ++ two_digit_suffix (year + 1)
  else py_str_int (year - 1) ++ str_of "-" ++ two_digit_suffix year.

(** The check that [str(n)[2:]] is the last two digits of [n]. *)
Definition suffix_agrees (n : Z) : bool :=
  str_eqb (skipn 2 (py_str_int n)) (two_digit_suffix n).

(** [str(n)] has four characters. *)
Definition four_chars (n : Z) : bool :=
  (List.length (py_str_int n) =? 4)%nat.

(** [time.time() - v]. *)
Definition seconds_since (now : Z) (v : json) : result Z :=
  match v with
  | JNum t => Ok (now - t)%Z
  | JBool b => Ok (now - (if b then 1 else 0))%Z
  | JHuge _ => Raise OverflowError
  | _ => Raise TypeError
  end.

(** [_load_cache], 5.py lines 51-62.  Python's [None] is [JNull].  Only
    [json.JSONDecodeError] is caught. *)
Definition _load_cache (now : Z) (file : cache_file) : result json :=
  match file with
  | NoFile => Ok JNull
  | Unreadable JSONDecodeError => Ok JNull
  | Unreadable e => Raise e
  | BadJSON => Ok JNull
  | GoodJSON cache =>
      timestamp <- getitem cache (str_of "timestamp") ;;
      age <- seconds_since now timestamp ;;
      if (age <? cache_duration)%Z then getitem cache (str_of "data")
      else Ok JNull
  end.

(** [_save_cache], lines 64-71: the file after a successful write. *)
Definition _save_cache (now : Z) (data : json) : cache_file :=
  GoodJSON (JObj [(str_of "timestamp", JNum now); (str_of "data", data)]).

(** [pd_DataFrame data] is the frame that [pd.DataFrame(data)] returns
    when it returns one; [pd.DataFrame()] is the frame of no data. *)
Inductive DataFrame : Type :=
| pd_DataFrame (data : json).

Definition empty_frame : DataFrame := pd_DataFrame (JArr []).

(** The call [pd.DataFrame(data)]. *)
Definition new_frame (w : world) (data : json) : result DataFrame :=
  match DataFrame_raises w data with
  | Some e => Raise e
  | None => Ok (pd_DataFrame data)
  end.

(** One pass of the loop of lines 104-113: the record appended to
    [players] for one row, if any. *)
Definition player_record (season : pystr) (headers player : json)
  : result (option json) :=
  hs <- py_iter headers ;;
  ps <- py_iter player ;;
  player_dict <- dict_of_pairs (combine hs ps) ;;
  to_year <- pairs_get (str_of "TO_YEAR") player_dict ;;
  if eq_str to_year (firstn 4 season) then
    player_id <- pairs_get (str_of "PERSON_ID") player_dict ;;
    full_name <- pairs_get (str_of "DISPLAY_FIRST_LAST") player_dict ;;
    team_id <- pairs_get (str_of "TEAM_ID") player_dict ;;
    team_id' <- pairs_get (str_of "TEAM_ID") player_dict ;;
    team <- (if ne_zero team_id'
             then pairs_get (str_of "TEAM_NAME") player_dict
             else Ok (JStr (str_of "Free Agent"))) ;;
    Ok (Some (JObj [(str_of "player_id", player_id);
                    (str_of "full_name", full_name);
                    (str_of "team_id", team_id);
                    (str_of "team", team);
                    (str_of "is_active", JBool true)]))
  else Ok None.

Fixpoint player_records (season : pystr) (headers : json) (rows : list json)
  : result (list json) :=
  match rows with
  | [] => Ok []
  | player :: rest =>
      r <- player_record season headers player ;;
      rs <- player_records season headers rest ;;
      Ok (match r with Some p => p :: rs | None => rs end)
  end.

(** The [try] block of [fetch_players], lines 90-115, up to [players]. *)
Definition request_players (w : world) : result (list json) :=
  match reply w with
  | ConnectionFailed => Raise RequestException
  | StatusError => Raise RequestException
  | BodyNotJSON => Raise JSONDecodeError
  | Body data =>
      sets <- getitem data (str_of "resultSets") ;;
      set0 <- getitem0 sets ;;
      headers <- getitem set0 (str_of "headers") ;;
      sets' <- getitem data (str_of "resultSets") ;;
      set0' <- getitem0 sets' ;;
      players_data <- getitem set0' (str_of "rowSet") ;;
      rows <- py_iter players_data ;;
      player_records (_get_current_season (now_year w) (now_month w))
                     headers rows
  end.

(** Lines 128-134: what follows the [except] clauses, outside the
    [try]; [file] is the cache file as the [try] block left it. *)
Definition fallback (use_cache : bool) (w : world) (file : cache_file)
  : result DataFrame :=
  if use_cache then
    cached_data <- _load_cache (time_time w) file ;;
    if truthy cached_data then new_frame w cached_data
    else Ok empty_frame
  else Ok empty_frame.

(** The [try] block, lines 90-117: the request, the frame, the save of
    [df.to_dict('records')]; the frame returned or the exception raised,
    and the cache file afterwards. *)
Definition try_block (w : world) : result DataFrame * cache_file :=
  match request_players w with
  | Raise e => (Raise e, cache_state w)
  | Ok players =>
      match new_frame w (JArr players) with
      | Raise e => (Raise e, cache_state w)
      | Ok df =>
          match save_raises w with
          | Some (e, remains) => (Raise e, remains)
          | None =>
              (Ok df,
               _save_cache (time_time w) (to_dict_records w (JArr players)))
          end
      end
  end.

(** Lines 89-134: the [try] block and, on any exception of it (the last
    clause is [except Exception]), the fallback. *)
Definition fetch_fresh (use_cache : bool) (w : world)
  : result DataFrame * cache_file :=
  match try_block w with
  | (Ok df, file) => (Ok df, file)
  | (Raise _, file) => (fallback use_cache w file, file)
  end.

(** [fetch_players], 5.py lines 73-134: the frame returned (or the
    exception raised) and the cache file afterwards. *)
Definition fetch_players (use_cache invalidate_cache : bool) (w : world)
  : result DataFrame * cache_file :=
  if use_cache && negb invalidate_cache then
    match _load_cache (time_time w) (cache_state w) with
    | Raise e => (Raise e, cache_state w)
    | Ok cached_data =>
        if truthy cached_data then (new_frame w cached_data, cache_state w)
        else fetch_fresh use_cache w
    end
  else fetch_fresh use_cache w.

(** The shape of a record of the roster, as lines 107-113 build it: the
    five fields in order, [is_active] true, and the team "Free Agent"
    when [team_id] equals 0. *)
Definition is_player_record (p : json) : Prop :=
  exists player_id full_name team_id team,
    p = JObj [(str_of "player_id", player_id);
              (str_of "full_name", full_name);
              (str_of "team_id", team_id);
              (str_of "team", team);
              (str_of "is_active", JBool true)]
    /\ (ne_zero team_id = false -> team = JStr (str_of "Free Agent")).

(** ** Sample data for the examples *)

Definition sample_headers : json :=
  JArr [JStr (str_of "PERSON_ID"); JStr (str_of "DISPLAY_FIRST_LAST");
        JStr (str_of "TO_YEAR"); JStr (str_of "TEAM_ID");
        JStr (str_of "TEAM_NAME")].

Definition sample_rows : list json :=
  [JArr [JNum 2544; JStr (str_of "LeBron James"); JStr (str_of "2024");
         JNum 1610612747; JStr (str_of "Lakers")];
   JArr [JNum 893; JStr (str_of "Michael Jordan"); JStr (str_of "2002");
         JNum 0; JStr (str_of "")];
   JArr [JNum 201566; JStr (str_of "Russell Westbrook"); JStr (str_of "2024");
         JNum 0; JNull]].

Definition sample_body : json :=
  JObj [(str_of "resultSets",
         JArr [JObj [(str_of "headers", sample_headers);
                     (str_of "rowSet", JArr sample_rows)]])].

(** The roster that [sample_body] gives in the season 2024-25. *)
Definition sample_players : list json :=
  [JObj [(str_of "player_id", JNum 2544);
         (str_of "full_name", JStr (str_of "LeBron James"));
         (str_of "team_id", JNum 1610612747);
         (str_of "team", JStr (str_of "Lakers"));
         (str_of "is_active", JBool true)];
   JObj [(str_of "player_id", JNum 201566);
         (str_of "full_name", JStr (str_of "Russell Westbrook"));
         (str_of "team_id", JNum 0);
         (str_of "team", JStr (str_of "Free Agent"));
         (str_of "is_active", JBool true)]].

(** A call in November 2024, [now] seconds into the epoch, with a pandas
    that takes lists only and gives their records back as they are, and a
    disk that can be written. *)
Definition sample_world (now : Z) (file : cache_file) (answer : http_reply)
  : world :=
  {| time_time := now; now_year := 2024; now_month := 11;
     cache_state := file; reply := answer;
     DataFrame_raises :=
       fun data => match data with JArr _ => None | _ => Some ValueError end;
     to_dict_records := fun data => data;
     save_raises := None |}.

(** * Properties *)

(** ** Lemmas on splitting and joining *)

Lemma push_word_nil (ws : list pystr) : push_word [] ws = ws.
Proof. reflexivity. Qed.

Lemma push_word_cons (c : codepoint) (w : pystr) (ws : list pystr) :
  push_word (c :: w) ws = (c :: w) :: ws.
Proof. reflexivity. Qed.

Lemma str_split_ws (c : codepoint) (t : pystr) :
  Py_UNICODE_ISSPACE c = true -> str_split (c :: t) = str_split t.
Proof.
  intros Hc. unfold str_split. simpl.
  destruct (split_scan t) as [w ws]. rewrite Hc. reflexivity.
Qed.

Lemma str_split_lstrip (s : pystr) : str_split (str_lstrip s) = str_split s.
Proof.
  induction s as [|c t IH]; simpl; [reflexivity|].
  destruct (Py_UNICODE_ISSPACE c) eqn:Hc; [|reflexivity].
  rewrite IH. symmetry. now apply str_split_ws.
Qed.

(** Every word of [split_scan s] is a word, made of characters of [s]. *)
Lemma split_scan_words (s : pystr) :
  Forall (fun c => Py_UNICODE_ISSPACE c = false /\ In c s) (fst (split_scan s))
  /\ Forall (fun w => w <> [] /\
                      Forall (fun c => Py_UNICODE_ISSPACE c = false /\ In c s) w)
            (snd (split_scan s)).
Proof.
  induction s as [|c t [IHw IHws]]; simpl.
  - split; constructor.
  - assert (Hmono : forall w : pystr,
               Forall (fun c0 => Py_UNICODE_ISSPACE c0 = false /\ In c0 t) w ->
               Forall (fun c0 => Py_UNICODE_ISSPACE c0 = false /\ In c0 (c :: t)) w).
    { intros w Hw. eapply Forall_impl; [|exact Hw].
      simpl. intros a [Ha Hin]. auto. }
    assert (Hmono' : forall ws : list pystr,
               Forall (fun w => w <> [] /\
                      Forall (fun c0 => Py_UNICODE_ISSPACE c0 = false /\ In c0 t) w) ws ->
               Forall (fun w => w <> [] /\
                      Forall (fun c0 => Py_UNICODE_ISSPACE c0 = false /\ In c0 (c :: t)) w) ws).
    { intros ws Hws. eapply Forall_impl; [|exact Hws].
      simpl. intros a [Ha Hin]. auto. }
    destruct (split_scan t) as [w ws]. simpl in *.
    destruct (Py_UNICODE_ISSPACE c) eqn:Hc; simpl.
    + split; [constructor|].
      destruct w as [|a w']; simpl; [auto|].
      constructor; [|auto]. split; [discriminate|auto].
    + split; [|auto]. constructor; [|auto]. split; [exact Hc|now left].
Qed.

Lemma str_split_words (s : pystr) :
  Forall (fun w => w <> [] /\
                   Forall (fun c => Py_UNICODE_ISSPACE c = false /\ In c s) w)
         (str_split s).
Proof.
  unfold str_split. pose proof (split_scan_words s) as [Hw Hws].
  destruct (split_scan s) as [w ws]. simpl in *.
  destruct w as [|a w']; simpl; [exact Hws|].
  constructor; [|exact Hws]. split; [discriminate|exact Hw].
Qed.

Lemma str_split_is_word (s : pystr) : Forall is_word (str_split s).
Proof.
  eapply Forall_impl; [|apply str_split_words].
  intros w [Hne Hw]. split; [exact Hne|].
  eapply Forall_impl; [|exact Hw]. simpl. tauto.
Qed.

Lemma split_scan_app_word (w r : pystr) :
  Forall (fun c => Py_UNICODE_ISSPACE c = false) w ->
  split_scan (w ++ r) = (w ++ fst (split_scan r), snd (split_scan r)).
Proof.
  induction 1 as [|c w Hc Hw IH]; simpl.
  - now destruct (split_scan r).
  - rewrite IH, Hc. reflexivity.
Qed.

Lemma split_scan_ws (c : codepoint) (r : pystr) :
  Py_UNICODE_ISSPACE c = true -> split_scan (c :: r) = ([], str_split r).
Proof.
  intros Hc. unfold str_split. simpl.
  destruct (split_scan r) as [u us]. now rewrite Hc.
Qed.

(** Splitting what was joined by single spaces gives the words back. *)
Lemma str_split_join (ws : list pystr) :
  Forall is_word ws -> str_split (str_join [SPACE] ws) = ws.
Proof.
  induction 1 as [|w ws [Hne Hw] Hws IH]; [reflexivity|].
  destruct ws as [|w2 ws'].
  - simpl. unfold str_split.
    pose proof (split_scan_app_word w [] Hw) as E.
    simpl in E. rewrite !app_nil_r in E. rewrite E.
    destruct w; [contradiction|reflexivity].
  - change (str_join [SPACE] (w :: w2 :: ws'))
      with (w ++ SPACE :: str_join [SPACE] (w2 :: ws')).
    unfold str_split. rewrite split_scan_app_word by exact Hw.
    rewrite split_scan_ws by reflexivity. rewrite IH.
    simpl fst. simpl snd. rewrite app_nil_r.
    destruct w; [contradiction|reflexivity].
Qed.

Lemma str_join_cons (sep w : pystr) (ws : list pystr) :
  str_join sep (w :: ws)
  = w ++ match ws with [] => [] | _ :: _ => sep ++ str_join sep ws end.
Proof. destruct ws; simpl; [now rewrite app_nil_r|reflexivity]. Qed.

Lemma split_scan_all_ws (t : pystr) :
  forallb Py_UNICODE_ISSPACE t = true -> split_scan t = ([], []).
Proof.
  induction t as [|c t IH]; simpl; [reflexivity|].
  intros H. apply andb_true_iff in H as [Hc Ht].
  rewrite (IH Ht), Hc. reflexivity.
Qed.

Lemma str_split_not_all_ws (t : pystr) :
  forallb Py_UNICODE_ISSPACE t = false -> str_split t <> [].
Proof.
  induction t as [|c t IH]; simpl; [discriminate|].
  intros H. destruct (Py_UNICODE_ISSPACE c) eqn:Hc.
  - rewrite (str_split_ws c t Hc). apply IH. exact H.
  - unfold str_split. simpl. destruct (split_scan t). rewrite Hc. discriminate.
Qed.

(** The two passes over the stripped text, read off the scan of [s]. *)
Lemma sub_ws_runs_rstrip (s : pystr) :
  sub_ws_runs false (str_rstrip s)
  = fst (split_scan s)
    ++ match snd (split_scan s) with
       | [] => []
       | _ :: _ => SPACE :: str_join [SPACE] (snd (split_scan s))
       end
  /\ sub_ws_runs true (str_rstrip s) = str_join [SPACE] (str_split s).
Proof.
  induction s as [|c t [IHP IHQ]]; [split; reflexivity|].
  destruct (Py_UNICODE_ISSPACE c) eqn:Hc.
  - rewrite (split_scan_ws c t Hc), (str_split_ws c t Hc).
    simpl str_rstrip. rewrite Hc. simpl fst. simpl snd.
    destruct (forallb Py_UNICODE_ISSPACE t) eqn:Ht; simpl andb; cbv iota.
    + unfold str_split. rewrite (split_scan_all_ws t Ht). split; reflexivity.
    + simpl sub_ws_runs. rewrite Hc, IHQ.
      pose proof (str_split_not_all_ws t Ht) as Hne.
      destruct (str_split t); [contradiction|]. split; reflexivity.
  - simpl str_rstrip. rewrite Hc. simpl andb. cbv iota.
    simpl sub_ws_runs. rewrite Hc, IHP.
    unfold str_split. simpl split_scan. rewrite Hc.
    destruct (split_scan t) as [w ws]. simpl fst. simpl snd.
    split; [reflexivity|]. rewrite push_word_cons, str_join_cons.
    reflexivity.
Qed.

Lemma str_lstrip_head (s : pystr) : starts_with_ws (str_lstrip s) = false.
Proof.
  induction s as [|c t IH]; simpl; [reflexivity|].
  destruct (Py_UNICODE_ISSPACE c) eqn:Hc; [exact IH|simpl; exact Hc].
Qed.

Lemma sub_ws_runs_head (s : pystr) :
  starts_with_ws s = false ->
  sub_ws_runs false (str_rstrip s) = sub_ws_runs true (str_rstrip s).
Proof.
  destruct s as [|c t]; simpl; [reflexivity|].
  intros Hc. rewrite Hc. simpl. rewrite Hc. reflexivity.
Qed.

(** Stripping and collapsing whitespace is splitting and joining by one
    space: the first two passes of [clean_transcript]. *)
Lemma strip_collapse_is_split_join (s : pystr) :
  sub_ws_runs false (str_strip s) = str_join [SPACE] (str_split s).
Proof.
  unfold str_strip.
  rewrite (sub_ws_runs_head _ (str_lstrip_head s)).
  rewrite (proj2 (sub_ws_runs_rstrip _)). now rewrite str_split_lstrip.
Qed.

Lemma clean_transcript_split_join (text : pystr) :
  clean_transcript text = sub_non_ascii (str_join [SPACE] (str_split text)).
Proof. unfold clean_transcript. now rewrite strip_collapse_is_split_join. Qed.

(** ** Whitespace shape of joined words *)

Section Runs.

Variable p : codepoint -> bool.
Hypothesis p_ws : forall c, p c = true -> Py_UNICODE_ISSPACE c = true.

Lemma p_not_ws (c : codepoint) : Py_UNICODE_ISSPACE c = false -> p c = false.
Proof.
  intros Hc. destruct (p c) eqn:Hp; [|reflexivity].
  apply p_ws in Hp. congruence.
Qed.

Lemma starts_with_ws_app (a b : pystr) :
  a <> [] -> starts_with_ws (a ++ b) = starts_with_ws a.
Proof. destruct a; [contradiction|reflexivity]. Qed.

Lemma ends_with_ws_app (a b : pystr) :
  b <> [] -> ends_with_ws (a ++ b) = ends_with_ws b.
Proof.
  intros Hb. induction a as [|x a IH]; [reflexivity|].
  simpl app. destruct (a ++ b) eqn:E.
  - apply app_eq_nil in E as [_ E]. contradiction.
  - exact IH.
Qed.

Lemma ends_with_ws_cons (x : codepoint) (b : pystr) :
  b <> [] -> ends_with_ws (x :: b) = ends_with_ws b.
Proof. destruct b; [contradiction|reflexivity]. Qed.

Lemma has_run_space_cons (b : pystr) :
  starts_with_ws b = false -> has_run p b = false ->
  has_run p (SPACE :: b) = false.
Proof.
  destruct b as [|y b]; [reflexivity|]. simpl starts_with_ws.
  intros Hy Hb. change (has_run p (SPACE :: y :: b))
    with ((p SPACE && p y) || has_run p (y :: b)).
  rewrite (p_not_ws y Hy), Hb, andb_false_r. reflexivity.
Qed.

Lemma has_run_app_space (a b : pystr) :
  a <> [] -> ends_with_ws a = false -> has_run p a = false ->
  starts_with_ws b = false -> has_run p b = false ->
  has_run p (a ++ SPACE :: b) = false.
Proof.
  intros Ha He Hr Hs Hb. induction a as [|x a IH]; [contradiction|].
  destruct a as [|x' a].
  - simpl in He. simpl app.
    change (has_run p (x :: SPACE :: b))
      with ((p x && p SPACE) || has_run p (SPACE :: b)).
    rewrite (p_not_ws x He), (has_run_space_cons b Hs Hb). reflexivity.
  - change (has_run p ((x :: x' :: a) ++ SPACE :: b))
      with ((p x && p x') || has_run p ((x' :: a) ++ SPACE :: b)).
    change (has_run p (x :: x' :: a))
      with ((p x && p x') || has_run p (x' :: a)) in Hr.
    apply orb_false_iff in Hr as [Hxx Hr]. rewrite Hxx.
    apply IH; [discriminate|exact He|exact Hr].
Qed.

(** Tidy words joined by single spaces: no whitespace at either end, no
    run of [p] characters. *)
Lemma str_join_tidy (ws : list pystr) :
  Forall (tidy p) ws ->
  starts_with_ws (str_join [SPACE] ws) = false
  /\ ends_with_ws (str_join [SPACE] ws) = false
  /\ has_run p (str_join [SPACE] ws) = false.
Proof.
  induction 1 as [|w ws (Hne & Hs & He & Hr) Hws (IHs & IHe & IHr)].
  - repeat split; reflexivity.
  - rewrite str_join_cons. destruct ws as [|w2 ws'].
    + rewrite app_nil_r. auto.
    + change ([SPACE] ++ str_join [SPACE] (w2 :: ws'))
        with (SPACE :: str_join [SPACE] (w2 :: ws')).
      assert (Hj : str_join [SPACE] (w2 :: ws') <> []).
      { apply Forall_inv in Hws. destruct Hws as [Hw2 _].
        rewrite str_join_cons. destruct w2; [contradiction|discriminate]. }
      repeat split.
      * now rewrite starts_with_ws_app.
      * rewrite ends_with_ws_app by discriminate.
        now rewrite ends_with_ws_cons.
      * now apply has_run_app_space.
Qed.

Lemma has_run_no_ws (w : pystr) :
  Forall (fun c => Py_UNICODE_ISSPACE c = false) w -> has_run p w = false.
Proof.
  induction 1 as [|c w Hc Hw IH]; [reflexivity|].
  destruct w as [|c' w]; [reflexivity|].
  change (has_run p (c :: c' :: w)) with ((p c && p c') || has_run p (c' :: w)).
  now rewrite (p_not_ws c Hc), IH.
Qed.

Lemma is_word_tidy (w : pystr) : is_word w -> tidy p w.
Proof.
  intros [Hne Hw]. repeat split.
  - exact Hne.
  - destruct Hw; [reflexivity|]. simpl. assumption.
  - induction Hw as [|c w Hc Hw IH]; [reflexivity|].
    destruct w as [|c' w]; [exact Hc|]. apply IH. discriminate.
  - now apply has_run_no_ws.
Qed.

End Runs.

(** ** The cleaner *)

Lemma sub_non_ascii_id (s : pystr) :
  Forall (fun c => is_ascii c = true) s -> sub_non_ascii s = s.
Proof.
  induction 1 as [|c s Hc Hs IH]; [reflexivity|].
  unfold sub_non_ascii in *. simpl. now rewrite Hc, IH.
Qed.

Lemma str_join_ascii (ws : list pystr) :
  Forall (Forall (fun c => is_ascii c = true)) ws ->
  Forall (fun c => is_ascii c = true) (str_join [SPACE] ws).
Proof.
  induction 1 as [|w ws Hw Hws IH]; [constructor|].
  rewrite str_join_cons. apply Forall_app. split; [exact Hw|].
  destruct ws; [constructor|]. constructor; [reflexivity|exact IH].
Qed.

Lemma ascii_words_split (s : pystr) :
  ascii_words s = true ->
  Forall (Forall (fun c => is_ascii c = true)) (str_split s).
Proof.
  intros H. unfold ascii_words in H. rewrite forallb_forall in H.
  eapply Forall_impl; [|apply (str_split_words s)].
  intros w [_ Hw]. eapply Forall_impl; [|exact Hw].
  simpl. intros c [Hc Hin]. specialize (H c Hin). now rewrite Hc in H.
Qed.

(** On a text whose words are ASCII the third pass removes nothing. *)
Lemma clean_transcript_ascii_words (text : pystr) :
  ascii_words text = true ->
  clean_transcript text = str_join [SPACE] (str_split text).
Proof.
  intros H. rewrite clean_transcript_split_join.
  apply sub_non_ascii_id, str_join_ascii, ascii_words_split, H.
Qed.

Lemma clean_transcript_is_ascii (text : pystr) :
  Forall (fun c => is_ascii c = true) (clean_transcript text).
Proof.
  unfold clean_transcript, sub_non_ascii. apply Forall_forall.
  intros c Hc. now apply filter_In in Hc.
Qed.

(** A text that is all ASCII and already joined by single spaces is a fixed
    point of the cleaner. *)
Lemma clean_transcript_fixed (ws : list pystr) :
  Forall is_word ws ->
  Forall (Forall (fun c => is_ascii c = true)) ws ->
  clean_transcript (str_join [SPACE] ws) = str_join [SPACE] ws.
Proof.
  intros Hw Ha. rewrite clean_transcript_split_join, str_split_join by exact Hw.
  now apply sub_non_ascii_id, str_join_ascii.
Qed.

Lemma ascii_is_ascii_words (s : pystr) :
  Forall (fun c => is_ascii c = true) s -> ascii_words s = true.
Proof.
  intros H. unfold ascii_words. apply forallb_forall. intros c Hc.
  rewrite Forall_forall in H. now rewrite (H c Hc), orb_true_r.
Qed.

(** From the second application on, the cleaner changes nothing. *)
Lemma clean_transcript_settles (x : pystr) :
  clean_transcript (clean_transcript (clean_transcript x))
  = clean_transcript (clean_transcript x).
Proof.
  pose proof (ascii_is_ascii_words _ (clean_transcript_is_ascii x)) as H.
  rewrite (clean_transcript_ascii_words (clean_transcript x) H).
  apply clean_transcript_fixed;
    [apply str_split_is_word|apply ascii_words_split, H].
Qed.

(** C3 fails as stated: on "a é b" the cleaner leaves two spaces where the
    accented letter stood, and a second application removes one. *)
Lemma clean_transcript_not_idempotent :
  clean_transcript [0x61; 0x20; 0xE9; 0x20; 0x62]%N
    = [0x61; 0x20; 0x20; 0x62]%N
  /\ clean_transcript (clean_transcript [0x61; 0x20; 0xE9; 0x20; 0x62]%N)
     <> clean_transcript [0x61; 0x20; 0xE9; 0x20; 0x62]%N.
Proof.
  split; [reflexivity|]. intros H. vm_compute in H. discriminate H.
Qed.

(** C8 fails as stated: U+0001 is neither whitespace nor above U+007F and
    stays, though it is not printable; and "é a" comes out with the space
    that followed the removed letter in front. *)
Lemma clean_transcript_keeps_control_character :
  clean_transcript [0x01]%N = [0x01]%N
  /\ printable_ascii 0x01%N = false
  /\ clean_transcript [0xE9; 0x20; 0x61]%N = [0x20; 0x61]%N
  /\ starts_with_ws (clean_transcript [0xE9; 0x20; 0x61]%N) = true.
Proof. repeat split. Qed.

(** ** The name corrector *)

Lemma str_truthy_true (s : pystr) : str_truthy s = true <-> s <> [].
Proof. destruct s; simpl; split; congruence. Qed.

Lemma shared_word_ratio_nonneg (query choice : pystr) :
  (0 <= shared_word_ratio query choice)%Z.
Proof. unfold shared_word_ratio. destruct (existsb _ _); lia. Qed.


Section CorrectorProperties.

Variable U : case_table.
Variable sc : pystr -> pystr -> Z.

Open Scope Z_scope.

Lemma max_by_score_spec (l : list (pystr * Z)) :
  forall best,
    In (max_by_score best l) (best :: l)
    /\ forall x, In x (best :: l) -> snd x <= snd (max_by_score best l).
Proof.
  induction l as [|y l IH]; intros best; simpl.
  - split; [now left|]. intros x [<-|[]]. lia.
  - destruct (IH (if snd best <? snd y then y else best)) as [Hin Hmax].
    split.
    + destruct Hin as [Hin|Hin]; [|now right; right].
      rewrite <- Hin. destruct (snd best <? snd y); [right|]; now left.
    + intros x Hx.
      assert (Hb : snd best <= snd (if snd best <? snd y then y else best)
                   /\ snd y <= snd (if snd best <? snd y then y else best)).
      { destruct (Z.ltb_spec (snd best) (snd y)); lia. }
      pose proof (Hmax _ (or_introl eq_refl)) as H0.
      destruct Hx as [<-|[<-|Hx]]; [lia|lia|].
      apply Hmax. now right.
Qed.

Lemma extractWithoutOrder_In (query : pystr) (choices : list pystr)
    (x : pystr * Z) :
  In x (extractWithoutOrder sc query choices)
  <-> In (fst x) choices /\ snd x = sc query (fst x) /\ 0 <= snd x.
Proof.
  unfold extractWithoutOrder. rewrite filter_In, in_map_iff. split.
  - intros [[c [<- Hc]] H0]. simpl in *. apply Z.leb_le in H0. auto.
  - intros (Hc & Hs & H0). split; [|now apply Z.leb_le].
    exists (fst x). split; [|exact Hc]. destruct x; simpl in *. now subst.
Qed.

(** What [extractOne] returns is a choice with its score, and no choice
    scores higher. *)
Lemma extractOne_Some (query : pystr) (choices : list pystr)
    (best : pystr) (score : Z) :
  extractOne sc query choices = Some (best, score) ->
  In best choices /\ score = sc query best
  /\ forall c, In c choices -> sc query c <= score.
Proof.
  unfold extractOne. pose proof (extractWithoutOrder_In query choices) as HIn.
  destruct (extractWithoutOrder sc query choices) as [|x l]; [discriminate|].
  intros [= E]. destruct (max_by_score_spec l x) as [Hin Hmax].
  rewrite E in Hin, Hmax. apply HIn in Hin. simpl in Hin.
  destruct Hin as (Hb & Hs & H0). split; [exact Hb|]. split; [exact Hs|].
  intros c Hc. destruct (Z.le_gt_cases 0 (sc query c)) as [Hpos|Hneg]; [|lia].
  apply (Hmax (c, sc query c)). apply HIn. simpl. auto.
Qed.

Lemma extractOne_None (query : pystr) (choices : list pystr) :
  extractOne sc query choices = None ->
  forall c, In c choices -> sc query c < 0.
Proof.
  unfold extractOne. pose proof (extractWithoutOrder_In query choices) as HIn.
  destruct (extractWithoutOrder sc query choices) as [|x l]; [|discriminate].
  intros _ c Hc. destruct (Z.le_gt_cases 0 (sc query c)) as [Hpos|Hneg]; [|lia].
  destruct (proj2 (HIn (c, sc query c))); simpl; auto.
Qed.

Lemma correct_word_not_title (word : pystr) (roster : list pystr) :
  str_istitle U word = false -> correct_word U sc word roster = Ok word.
Proof. intros H. unfold correct_word. now rewrite H. Qed.

Lemma correct_word_empty_roster (word : pystr) :
  str_istitle U word = true -> correct_word U sc word [] = Raise TypeError.
Proof. intros H. unfold correct_word. now rewrite H. Qed.

(** A word that comes out of the loop body is the word that went in or a
    non-empty name of the roster. *)
Lemma correct_word_Ok (word : pystr) (roster : list pystr) (w : pystr) :
  correct_word U sc word roster = Ok w ->
  w = word \/ (In w roster /\ w <> []).
Proof.
  unfold correct_word, find_closest_player_name.
  destruct (str_istitle U word); [|intros [= <-]; now left].
  destruct (extractOne sc word roster) as [[best score]|] eqn:E;
    [|discriminate].
  apply extractOne_Some in E as (Hb & _ & _).
  destruct (80 <=? score); simpl; [|intros [= <-]; now left].
  destruct (str_truthy best) eqn:Ht; intros [= <-]; [right|now left].
  split; [exact Hb|]. now apply str_truthy_true.
Qed.

(** The loop yields one word per word. *)
Lemma correct_words_Ok (words : list pystr) (roster : list pystr) :
  forall corrected,
    correct_words U sc words roster = Ok corrected ->
    Forall2 (fun word w => correct_word U sc word roster = Ok w)
            words corrected.
Proof.
  induction words as [|word rest IH]; simpl; intros corrected.
  - intros [= <-]. constructor.
  - destruct (correct_word U sc word roster) as [w|e] eqn:Ew; [|discriminate].
    simpl. destruct (correct_words U sc rest roster) as [ws|e];
      [|discriminate].
    simpl. intros [= <-]. constructor; [exact Ew|]. now apply IH.
Qed.

Lemma correct_words_no_title (words : list pystr) (roster : list pystr) :
  existsb (str_istitle U) words = false ->
  correct_words U sc words roster = Ok words.
Proof.
  induction words as [|word rest IH]; simpl; [reflexivity|].
  intros H. apply orb_false_iff in H as [Hw Hr].
  now rewrite (correct_word_not_title word roster Hw), (IH Hr).
Qed.

Lemma correct_words_empty_roster (words : list pystr) :
  existsb (str_istitle U) words = true ->
  correct_words U sc words [] = Raise TypeError.
Proof.
  induction words as [|word rest IH]; simpl; [discriminate|].
  destruct (str_istitle U word) eqn:Hw.
  - intros _. now rewrite (correct_word_empty_roster word Hw).
  - simpl. intros H.
    now rewrite (correct_word_not_title word [] Hw), (IH H).
Qed.

(** With a roster that is not empty and scores from 0 up the corrector
    returns. *)
Lemma correct_player_names_returns (text : pystr) (roster : list pystr) :
  (forall q c, 0 <= sc q c) -> roster <> [] ->
  exists out, correct_player_names U sc text roster = Ok out.
Proof.
  intros Hsc Hne. unfold correct_player_names.
  assert (Hword : forall word, exists w, correct_word U sc word roster = Ok w).
  { intros word. unfold correct_word, find_closest_player_name.
    destruct (str_istitle U word); [|eauto].
    destruct (extractOne sc word roster) as [[best score]|] eqn:E.
    - destruct (80 <=? score); simpl; [|eauto].
      destruct (str_truthy best); eauto.
    - pose proof (extractOne_None word roster E) as Hneg.
      destruct roster as [|c r]; [contradiction|].
      specialize (Hneg c (or_introl eq_refl)). specialize (Hsc word c). lia. }
  assert (Hwords : forall words,
             exists ws, correct_words U sc words roster = Ok ws).
  { induction words as [|word rest [ws IH]]; simpl; [eauto|].
    destruct (Hword word) as [w Hw]. rewrite Hw, IH. simpl. eauto. }
  destruct (Hwords (str_split text)) as [ws Hws]. rewrite Hws. simpl. eauto.
Qed.

End CorrectorProperties.

Section CorrectorClaims.

Variable U : case_table.
Variable sc : pystr -> pystr -> Z.

Open Scope Z_scope.

(** C2 (the code at the failing inputs): with an empty roster the
    corrector raises [TypeError] as soon as the text has a title-cased
    word, [extractOne] returning [None] where a pair is unpacked. *)
Theorem correct_player_names_empty_roster_raises (text : pystr) :
  existsb (str_istitle U) (str_split text) = true ->
  correct_player_names U sc text [] = Raise TypeError.
Proof.
  intros H. unfold correct_player_names.
  now rewrite (correct_words_empty_roster U sc (str_split text) H).
Qed.



(** C9 (as amended): on a text with no title-cased word the corrector
    returns, for every roster, the words of the text joined by single
    spaces; that is the text itself when the text is a fixed point of the
    cleaner. *)
Theorem correct_player_names_no_title (text : pystr) (roster : list pystr) :
  existsb (str_istitle U) (str_split text) = false ->
  correct_player_names U sc text roster
  = Ok (str_join [SPACE] (str_split text))
  /\ (clean_transcript text = text ->
      correct_player_names U sc text roster = Ok text).
Proof.
  intros H.
  assert (E : correct_player_names U sc text roster
              = Ok (str_join [SPACE] (str_split text))).
  { unfold correct_player_names.
    now rewrite (correct_words_no_title U sc (str_split text) roster H). }
  split; [exact E|]. intros Hfix. rewrite E. f_equal.
  rewrite <- Hfix at 2. symmetry. apply clean_transcript_ascii_words.
  apply ascii_is_ascii_words. rewrite <- Hfix. apply clean_transcript_is_ascii.
Qed.

Lemma is_space_ws (c : codepoint) :
  is_space c = true -> Py_UNICODE_ISSPACE c = true.
Proof. unfold is_space. intros H. apply N.eqb_eq in H. now subst. Qed.

(** C10 (as amended): when the corrector returns, it has produced one
    word per word of the text and returns them joined by single spaces;
    and when no roster name starts or ends with whitespace or has two
    adjacent spaces, neither does the output. *)
Theorem correct_player_names_shape (text : pystr) (roster : list pystr)
    (out : pystr) :
  correct_player_names U sc text roster = Ok out ->
  exists corrected,
    correct_words U sc (str_split text) roster = Ok corrected
    /\ List.length corrected = List.length (str_split text)
    /\ out = str_join [SPACE] corrected
    /\ (Forall clean_name roster ->
        starts_with_ws out = false /\ ends_with_ws out = false
        /\ has_run is_space out = false).
Proof.
  unfold correct_player_names.
  destruct (correct_words U sc (str_split text) roster) as [corrected|e] eqn:E;
    [|discriminate].
  simpl. intros [= <-]. exists corrected.
  pose proof (correct_words_Ok U sc _ _ _ E) as HF.
  split; [reflexivity|]. split; [symmetry; eapply Forall2_length; eauto|].
  split; [reflexivity|]. intros Hroster.
  apply (str_join_tidy is_space is_space_ws).
  pose proof (str_split_is_word text) as Hwords.
  clear E. induction HF as [|word w words ws Hw HF IH]; [constructor|].
  constructor.
  - destruct (correct_word_Ok U sc _ _ _ Hw) as [->|[Hin Hne]].
    + apply (is_word_tidy is_space is_space_ws). now apply Forall_inv in Hwords.
    + rewrite Forall_forall in Hroster.
      destruct (Hroster w Hin) as (Hs & He & Hr). repeat split; assumption.
  - apply IH. now apply Forall_inv_tail in Hwords.
Qed.

End CorrectorClaims.

Lemma correct_player_names_empty_roster_witness :
  existsb (str_istitle basic_latin) (str_split (str_of "Hello world")) = true
  /\ correct_player_names basic_latin shared_word_ratio
       (str_of "Hello world") [] = Raise TypeError.
Proof.
  split; [reflexivity|].
  apply (correct_player_names_empty_roster_raises basic_latin
           shared_word_ratio (str_of "Hello world")).
  reflexivity.
Defined.


Lemma correct_player_names_no_title_witness :
  existsb (str_istitle basic_latin) (str_split (str_of "had a huge game")) = false
  /\ clean_transcript (str_of "had a huge game") = str_of "had a huge game"
  /\ correct_player_names basic_latin shared_word_ratio
       (str_of "had a huge game") [str_of "LeBron James"]
     = Ok (str_of "had a huge game").
Proof.
  split; [reflexivity|]. split; [reflexivity|].
  apply (correct_player_names_no_title basic_latin shared_word_ratio
           (str_of "had a huge game") [str_of "LeBron James"]); reflexivity.
Defined.

Lemma correct_player_names_shape_witness :
  correct_player_names basic_latin shared_word_ratio
    (str_of "Lebron scored") [str_of "LeBron James"]
  = Ok (str_of "LeBron James scored")
  /\ Forall clean_name [str_of "LeBron James"]
  /\ starts_with_ws (str_of "LeBron James scored") = false
  /\ ends_with_ws (str_of "LeBron James scored") = false
  /\ has_run is_space (str_of "LeBron James scored") = false.
Proof.
  split; [reflexivity|].
  assert (Hroster : Forall clean_name [str_of "LeBron James"])
    by (repeat constructor).
  split; [exact Hroster|].
  destruct (correct_player_names_shape basic_latin shared_word_ratio
              (str_of "Lebron scored") [str_of "LeBron James"]
              (str_of "LeBron James scored") eq_refl)
    as (corrected & _ & _ & _ & Hshape).
  exact (Hshape Hroster).
Defined.


(** C9 fails as stated: the cleaner turns "a é b" into "a  b", which has
    no title-cased word, and the corrector returns "a b". *)
Lemma correct_player_names_collapses_spaces :
  clean_transcript [0x61; 0x20; 0xE9; 0x20; 0x62]%N = str_of "a  b"
  /\ existsb (str_istitle basic_latin) (str_split (str_of "a  b")) = false
  /\ correct_player_names basic_latin shared_word_ratio (str_of "a  b")
       [str_of "LeBron James"] = Ok (str_of "a b")
  /\ str_of "a b" <> str_of "a  b".
Proof. repeat split. discriminate. Qed.

(** C10 fails as stated: a roster name with two adjacent spaces comes out
    as it is. *)
Lemma correct_player_names_keeps_name_spaces :
  correct_player_names basic_latin shared_word_ratio (str_of "Lebron")
    [str_of "LeBron  James"] = Ok (str_of "LeBron  James")
  /\ has_run is_space (str_of "LeBron  James") = true.
Proof. split; reflexivity. Qed.

(** ** The roster fetcher *)

Lemma str_eqb_eq (a b : pystr) : str_eqb a b = true <-> a = b.
Proof.
  revert b. induction a as [|x a IH]; destruct b as [|y b]; simpl;
    try (split; [discriminate|discriminate]); [tauto|].
  rewrite andb_true_iff, N.eqb_eq, IH. split.
  - intros [-> ->]. reflexivity.
  - intros [= -> ->]. auto.
Qed.

(** The files on which the load is soft: none, one that is not JSON, one
    that holds an object with a numeric timestamp and some data. *)
Lemma _load_cache_soft (now : Z) :
  _load_cache now NoFile = Ok JNull
  /\ _load_cache now BadJSON = Ok JNull
  /\ forall fields timestamp data,
      dict_get (str_of "timestamp") fields = Some (JNum timestamp) ->
      dict_get (str_of "data") fields = Some data ->
      _load_cache now (GoodJSON (JObj fields))
      = Ok (if (now - timestamp <? cache_duration)%Z then data else JNull).
Proof.
  repeat split. intros fields timestamp data Ht Hd.
  unfold _load_cache, getitem. rewrite Ht. simpl. rewrite Hd.
  now destruct (now - timestamp <? cache_duration)%Z.
Qed.

(** C5 (the code at the failing inputs): a cache file that holds JSON of
    another shape makes [_load_cache] raise: an object without the
    timestamp (KeyError), a list, a timestamp that is no number
    (TypeError), a fresh timestamp without data (KeyError). *)
Theorem load_cache_wrong_shape_raises (now : Z) :
  _load_cache now (GoodJSON (JObj [])) = Raise KeyError
  /\ _load_cache now (GoodJSON (JArr [])) = Raise TypeError
  /\ _load_cache now
       (GoodJSON (JObj [(str_of "timestamp", JStr (str_of "yesterday"));
                        (str_of "data", JArr [])]))
     = Raise TypeError
  /\ _load_cache now (GoodJSON (JObj [(str_of "timestamp", JNum now)]))
     = Raise KeyError.
Proof.
  repeat split. unfold _load_cache. simpl. now rewrite Z.sub_diag.
Qed.

(** What else [_load_cache] lets through: whatever [open] or
    [json.load] raises that is no [JSONDecodeError], and the
    [OverflowError] of a timestamp too large for a float. *)
Lemma _load_cache_lets_through (now : Z) :
  _load_cache now (Unreadable UnicodeDecodeError) = Raise UnicodeDecodeError
  /\ _load_cache now (Unreadable OSError) = Raise OSError
  /\ _load_cache now (Unreadable RecursionError) = Raise RecursionError
  /\ _load_cache now (Unreadable JSONDecodeError) = Ok JNull
  /\ forall n data,
      _load_cache now
        (GoodJSON (JObj [(str_of "timestamp", JHuge n);
                         (str_of "data", data)]))
      = Raise OverflowError.
Proof. repeat split. Qed.

(** The exception of the load leaves [fetch_players], whatever the
    network answers, when the cache is consulted first. *)
Lemma fetch_players_propagates_load_error (w : world) (e : exn) :
  _load_cache (time_time w) (cache_state w) = Raise e ->
  fetch_players true false w = (Raise e, cache_state w).
Proof. intros H. unfold fetch_players. simpl. now rewrite H. Qed.




(** The failures of the [try] block named by the specification. *)
Lemma request_players_failures (w : world) :
  (reply w = ConnectionFailed -> request_players w = Raise RequestException)
  /\ (reply w = StatusError -> request_players w = Raise RequestException)
  /\ (reply w = BodyNotJSON -> request_players w = Raise JSONDecodeError)
  /\ (forall fields,
        reply w = Body (JObj fields) ->
        dict_get (str_of "resultSets") fields = None ->
        request_players w = Raise KeyError).
Proof.
  unfold request_players. repeat split.
  - now intros ->.
  - now intros ->.
  - now intros ->.
  - intros fields -> H. simpl. now rewrite H.
Qed.

(** ** The season label *)

Open Scope Z_scope.

Lemma suffix_agrees_four_digits :
  forallb (fun k => suffix_agrees (1000 + Z.of_nat k))
          (seq 0 (Z.to_nat 9000)) = true.
Proof. vm_compute. reflexivity. Qed.

(** Dropping the first two characters of a four-digit year leaves its last
    two digits. *)
Lemma skipn_two_digit_suffix (n : Z) :
  1000 <= n <= 9999 -> skipn 2 (py_str_int n) = two_digit_suffix n.
Proof.
  intros Hn. apply str_eqb_eq.
  pose proof suffix_agrees_four_digits as H. rewrite forallb_forall in H.
  specialize (H (Z.to_nat (n - 1000))).
  replace (1000 + Z.of_nat (Z.to_nat (n - 1000))) with n in H by lia.
  apply H. apply in_seq. lia.
Qed.

(** C7 (as amended): for a year of four digits whose successor has four
    digits too, the label is the year (from October on) or the year before
    (until September), a dash, and the last two digits of the year after
    the one printed. *)
Theorem season_label_four_digit_years (year month : Z) :
  1000 <= year <= 9998 ->
  _get_current_season year month = spec_season_label year month.
Proof.
  intros Hy. unfold _get_current_season, spec_season_label.
  destruct (10 <=? month).
  - now rewrite (skipn_two_digit_suffix (year + 1)) by lia.
  - now rewrite (skipn_two_digit_suffix year) by lia.
Qed.

Lemma season_label_four_digit_years_witness :
  _get_current_season 2024 11 = str_of "2024-25"
  /\ _get_current_season 2024 3 = str_of "2023-24"
  /\ _get_current_season 2024 11 = spec_season_label 2024 11.
Proof.
  split; [reflexivity|]. split; [reflexivity|].
  apply (season_label_four_digit_years 2024 11). lia.
Defined.

(** C7 fails as stated: in October 9999 the next year has five digits and
    the label ends in three. *)
Lemma season_label_year_9999 :
  _get_current_season 9999 10 = str_of "9999-000"
  /\ spec_season_label 9999 10 = str_of "9999-00"
  /\ _get_current_season 9999 10 <> spec_season_label 9999 10.
Proof. repeat split. discriminate. Qed.

(** * Further properties of the fetcher *)

Lemma load_saved_cache (now saved : Z) (data : json) :
  _load_cache now (_save_cache saved data)
  = Ok (if now - saved <? cache_duration then data else JNull).
Proof.
  unfold _save_cache.
  destruct (_load_cache_soft now) as (_ & _ & H). apply H; reflexivity.
Qed.

(** What [_save_cache] wrote is read back by [_load_cache] as long as
    less than [cache_duration] seconds (24 hours) have passed since the
    save, and counts as absent from then on; the load of such a file
    never raises. *)
Theorem save_then_load_cache (now saved : Z) (data : json) :
  (now - saved < cache_duration ->
   _load_cache now (_save_cache saved data) = Ok data)
  /\ (cache_duration <= now - saved ->
      _load_cache now (_save_cache saved data) = Ok JNull).
Proof.
  rewrite load_saved_cache. split; intros H.
  - apply Z.ltb_lt in H. now rewrite H.
  - apply Z.ltb_ge in H. now rewrite H.
Qed.

Lemma save_then_load_cache_witness :
  _load_cache 86399 (_save_cache 0 (JArr [JStr (str_of "LeBron James")]))
    = Ok (JArr [JStr (str_of "LeBron James")])
  /\ _load_cache 86400 (_save_cache 0 (JArr [JStr (str_of "LeBron James")]))
     = Ok JNull.
Proof.
  destruct (save_then_load_cache 86399 0
              (JArr [JStr (str_of "LeBron James")])) as [Hfresh _].
  destruct (save_then_load_cache 86400 0
              (JArr [JStr (str_of "LeBron James")])) as [_ Hstale].
  split; [apply Hfresh; reflexivity|apply Hstale; discriminate].
Defined.

Lemma sample_request (now : Z) (file : cache_file) :
  request_players (sample_world now file (Body sample_body))
  = Ok sample_players.
Proof. reflexivity. Qed.




(** When the cache file is rewritten and when it is not.  Past the cache
    (not in use, invalidated, or holding nothing to serve), a request
    and a frame that succeed are followed by the save: the file then
    holds [df.to_dict('records')] under the time of the call, or what a
    failed write left.  If the request fails, pandas refuses the players,
    the cache is served or its read raises, the file stays as it was. *)
Theorem fetch_players_cache_file (use_cache invalidate_cache : bool)
    (w : world) :
  (forall players,
      request_players w = Ok players ->
      DataFrame_raises w (JArr players) = None ->
      use_cache = false \/ invalidate_cache = true
      \/ (exists cached_data,
             _load_cache (time_time w) (cache_state w) = Ok cached_data
             /\ truthy cached_data = false) ->
      snd (fetch_players use_cache invalidate_cache w)
      = match save_raises w with
        | Some (_, remains) => remains
        | None => _save_cache (time_time w)
                              (to_dict_records w (JArr players))
        end)
  /\ ((exists e, request_players w = Raise e)
      \/ (exists players e,
             request_players w = Ok players
             /\ DataFrame_raises w (JArr players) = Some e) ->
      snd (fetch_players use_cache invalidate_cache w) = cache_state w)
  /\ (use_cache = true -> invalidate_cache = false ->
      (exists e, _load_cache (time_time w) (cache_state w) = Raise e)
      \/ (exists cached_data,
             _load_cache (time_time w) (cache_state w) = Ok cached_data
             /\ truthy cached_data = true) ->
      snd (fetch_players use_cache invalidate_cache w) = cache_state w).
Proof.
  split; [|split].
  - intros players Hreq Hframe Hpast.
    assert (Hfresh : snd (fetch_fresh use_cache w)
                     = match save_raises w with
                       | Some (_, remains) => remains
                       | None => _save_cache (time_time w)
                                   (to_dict_records w (JArr players))
                       end).
    { unfold fetch_fresh, try_block, new_frame. rewrite Hreq, Hframe.
      now destruct (save_raises w) as [[e remains]|]. }
    unfold fetch_players.
    destruct Hpast as [->|[->|(cached_data & Hload & Ht)]].
    + exact Hfresh.
    + now rewrite andb_false_r.
    + destruct (use_cache && negb invalidate_cache); [|exact Hfresh].
      now rewrite Hload, Ht.
  - intros Hfail.
    assert (Hfresh : snd (fetch_fresh use_cache w) = cache_state w).
    { unfold fetch_fresh, try_block, new_frame.
      destruct Hfail as [[e Hreq]|(players & e & Hreq & Hframe)].
      - now rewrite Hreq.
      - now rewrite Hreq, Hframe. }
    unfold fetch_players.
    destruct (use_cache && negb invalidate_cache); [|exact Hfresh].
    destruct (_load_cache (time_time w) (cache_state w)) as [cached_data|e];
      [|reflexivity].
    destruct (truthy cached_data); [reflexivity|exact Hfresh].
  - intros -> -> Hserved. unfold fetch_players. simpl.
    destruct Hserved as [[e Hload]|(cached_data & Hload & Ht)].
    + now rewrite Hload.
    + now rewrite Hload, Ht.
Qed.

Lemma fetch_players_cache_file_witness :
  snd (fetch_players true true
         (sample_world 1000 (GoodJSON (JObj [])) (Body sample_body)))
  = _save_cache 1000 (JArr sample_players)
  /\ snd (fetch_players true true
            (sample_world 1000 (GoodJSON (JObj [])) StatusError))
     = GoodJSON (JObj [])
  /\ snd (fetch_players true false
            (sample_world 1000 (_save_cache 900 (JArr sample_players))
                          (Body sample_body)))
     = _save_cache 900 (JArr sample_players).
Proof.
  split; [|split].
  - apply (proj1 (fetch_players_cache_file true true
             (sample_world 1000 (GoodJSON (JObj [])) (Body sample_body)))
             sample_players eq_refl eq_refl).
    right. left. reflexivity.
  - apply (proj1 (proj2 (fetch_players_cache_file true true
             (sample_world 1000 (GoodJSON (JObj [])) StatusError)))).
    left. exists RequestException. reflexivity.
  - apply (proj2 (proj2 (fetch_players_cache_file true false
             (sample_world 1000 (_save_cache 900 (JArr sample_players))
                           (Body sample_body))))
             eq_refl eq_refl).
    right. exists (JArr sample_players). split; reflexivity.
Defined.

(** A successful refresh ([invalidate_cache] set, or [use_cache] unset)
    does not read the cache file: whatever the file holds, the frame of
    the players of the answer is returned and its records are written. *)
Theorem fetch_players_refresh (use_cache invalidate_cache : bool)
    (w : world) (players : list json) :
  use_cache = false \/ invalidate_cache = true ->
  request_players w = Ok players ->
  DataFrame_raises w (JArr players) = None ->
  save_raises w = None ->
  fetch_players use_cache invalidate_cache w
  = (Ok (pd_DataFrame (JArr players)),
     _save_cache (time_time w) (to_dict_records w (JArr players))).
Proof.
  intros Hflags Hreq Hframe Hsave.
  unfold fetch_players, fetch_fresh, try_block, new_frame.
  rewrite Hreq, Hframe, Hsave.
  destruct Hflags as [-> | ->]; [reflexivity|].
  now rewrite andb_false_r.
Qed.

Lemma fetch_players_refresh_witness :
  fetch_players true true
    (sample_world 1000 (GoodJSON (JObj [])) (Body sample_body))
  = (Ok (pd_DataFrame (JArr sample_players)),
     _save_cache 1000 (JArr sample_players)).
Proof.
  apply (fetch_players_refresh true true
           (sample_world 1000 (GoodJSON (JObj [])) (Body sample_body))
           sample_players).
  - right. reflexivity.
  - reflexivity.
  - reflexivity.
  - reflexivity.
Defined.

(** What a successful refresh saved is served for the next 24 hours:
    when the saved records are not empty and pandas takes them, a fetch
    with the cache in use returns their frame whatever the network
    answers, and leaves the file alone. *)
Theorem fetch_players_then_cached (use_cache : bool) (w w' : world)
    (players : list json) :
  request_players w = Ok players ->
  DataFrame_raises w (JArr players) = None ->
  save_raises w = None ->
  truthy (to_dict_records w (JArr players)) = true ->
  DataFrame_raises w' (to_dict_records w (JArr players)) = None ->
  cache_state w' = snd (fetch_players use_cache true w) ->
  time_time w' - time_time w < cache_duration ->
  fetch_players true false w'
  = (Ok (pd_DataFrame (to_dict_records w (JArr players))), cache_state w').
Proof.
  intros Hreq Hframe Hsave Ht Hframe' Hfile Hfresh.
  assert (E : fetch_players use_cache true w
              = (Ok (pd_DataFrame (JArr players)),
                 _save_cache (time_time w)
                             (to_dict_records w (JArr players)))).
  { unfold fetch_players, fetch_fresh, try_block, new_frame.
    now rewrite Hreq, Hframe, Hsave, andb_false_r. }
  rewrite E in Hfile. simpl in Hfile.
  unfold fetch_players, new_frame. simpl andb. cbv iota.
  rewrite Hfile, load_saved_cache.
  apply Z.ltb_lt in Hfresh. rewrite Hfresh, Ht, Hframe'. reflexivity.
Qed.

Lemma fetch_players_then_cached_witness :
  fetch_players true false
    (sample_world 50000 (_save_cache 1000 (JArr sample_players))
                  ConnectionFailed)
  = (Ok (pd_DataFrame (JArr sample_players)),
     _save_cache 1000 (JArr sample_players)).
Proof.
  apply (fetch_players_then_cached true
           (sample_world 1000 NoFile (Body sample_body))
           (sample_world 50000 (_save_cache 1000 (JArr sample_players))
                         ConnectionFailed)
           sample_players); reflexivity.
Defined.

(** A cache older than 24 hours is never served, not even as the
    fallback of a failed request: the roster comes back empty. *)
Theorem fetch_players_stale_cache (use_cache invalidate_cache : bool)
    (w : world) (saved : Z) (data : json) (e : exn) :
  cache_state w = _save_cache saved data ->
  cache_duration <= time_time w - saved ->
  request_players w = Raise e ->
  fetch_players use_cache invalidate_cache w = (Ok empty_frame, cache_state w).
Proof.
  intros Hfile Hold Hreq.
  unfold fetch_players, fetch_fresh, try_block, fallback.
  rewrite Hreq, Hfile, load_saved_cache.
  apply Z.ltb_ge in Hold. rewrite Hold.
  destruct use_cache, invalidate_cache; reflexivity.
Qed.

Lemma fetch_players_stale_cache_witness :
  fetch_players true false
    (sample_world 90000 (_save_cache 1000 (JArr sample_players))
                  ConnectionFailed)
  = (Ok empty_frame, _save_cache 1000 (JArr sample_players)).
Proof.
  apply (fetch_players_stale_cache true false
           (sample_world 90000 (_save_cache 1000 (JArr sample_players))
                         ConnectionFailed)
           1000 (JArr sample_players) RequestException).
  - reflexivity.
  - discriminate.
  - reflexivity.
Defined.

(** A cached roster with no player is not served (an empty list is
    false): the request is made again though the file is fresh, and what
    it brings is returned and saved. *)
Theorem fetch_players_empty_cache_refetches (w : world) (saved : Z)
    (players : list json) :
  cache_state w = _save_cache saved (JArr []) ->
  request_players w = Ok players ->
  DataFrame_raises w (JArr players) = None ->
  save_raises w = None ->
  fetch_players true false w
  = (Ok (pd_DataFrame (JArr players)),
     _save_cache (time_time w) (to_dict_records w (JArr players))).
Proof.
  intros Hfile Hreq Hframe Hsave.
  unfold fetch_players, fetch_fresh, try_block, new_frame.
  rewrite Hreq, Hframe, Hsave, Hfile, load_saved_cache. simpl.
  now destruct (time_time w - saved <? cache_duration).
Qed.

Lemma fetch_players_empty_cache_refetches_witness :
  fetch_players true false
    (sample_world 2000 (_save_cache 1000 (JArr [])) (Body sample_body))
  = (Ok (pd_DataFrame (JArr sample_players)),
     _save_cache 2000 (JArr sample_players)).
Proof.
  apply (fetch_players_empty_cache_refetches
           (sample_world 2000 (_save_cache 1000 (JArr [])) (Body sample_body))
           1000 sample_players); reflexivity.
Defined.

Ltac bind_cases :=
  repeat match goal with
         | |- context [bind ?c _] =>
             let E := fresh "E" in
             destruct c eqn:E; simpl; try discriminate
         end.

Lemma player_record_shape (season : pystr) (headers player p : json) :
  player_record season headers player = Ok (Some p) -> is_player_record p.
Proof.
  unfold player_record. bind_cases; destruct (eq_str _ _); try discriminate.
  intros [= <-]. do 4 eexists. split; [reflexivity|]. intros Hz.
  match goal with
  | E : (if ne_zero ?t then _ else _) = Ok _ |- _ =>
      rewrite Hz in E; now injection E as <-
  end.
Qed.

(** Every record of a roster built from an answer has the five fields
    [player_id], [full_name], [team_id], [team], [is_active] in that
    order, with [is_active] true and the team "Free Agent" when [team_id]
    equals 0; and there are at most as many records as rows. *)
Theorem player_records_shape (season : pystr) (headers : json)
    (rows players : list json) :
  player_records season headers rows = Ok players ->
  Forall is_player_record players
  /\ (List.length players <= List.length rows)%nat.
Proof.
  revert players. induction rows as [|player rest IH]; simpl; intros players.
  - intros [= <-]. split; [apply Forall_nil|simpl; lia].
  - destruct (player_record season headers player) as [r|e] eqn:Er;
      [|discriminate].
    simpl. destruct (player_records season headers rest) as [rs|e];
      [|discriminate].
    simpl. destruct (IH rs eq_refl) as [Hrs Hlen]. intros [= <-].
    destruct r as [p|]; [|split; [exact Hrs|lia]].
    split; [|simpl; lia].
    constructor; [|exact Hrs]. exact (player_record_shape _ _ _ _ Er).
Qed.

Lemma player_records_shape_witness :
  player_records (str_of "2024-25") sample_headers sample_rows
    = Ok sample_players
  /\ Forall is_player_record sample_players
  /\ (List.length sample_players <= List.length sample_rows)%nat.
Proof.
  split; [reflexivity|].
  apply (player_records_shape (str_of "2024-25") sample_headers sample_rows
           sample_players).
  reflexivity.
Defined.

Lemma player_records_raises (season : pystr) (headers : json)
    (rows : list json) (player : json) (e : exn) :
  In player rows ->
  player_record season headers player = Raise e ->
  exists e', player_records season headers rows = Raise e'.
Proof.
  induction rows as [|r rest IH]; simpl; [contradiction|].
  intros [->|Hin] He.
  - rewrite He. simpl. eauto.
  - destruct (player_record season headers r); simpl; [|eauto].
    destruct (IH Hin He) as [e' ->]. simpl. eauto.
Qed.

(** One row that cannot be read discards the whole answer: if the record
    of any row raises (a row without [TO_YEAR], say), the request raises
    and no player of the answer is used, whatever the other rows hold. *)
Theorem request_players_all_or_nothing (w : world)
    (data sets set0 headers player : json) (rows : list json) (e : exn) :
  reply w = Body data ->
  getitem data (str_of "resultSets") = Ok sets ->
  getitem0 sets = Ok set0 ->
  getitem set0 (str_of "headers") = Ok headers ->
  getitem set0 (str_of "rowSet") = Ok (JArr rows) ->
  In player rows ->
  player_record (_get_current_season (now_year w) (now_month w))
                headers player = Raise e ->
  exists e', request_players w = Raise e'.
Proof.
  intros Hreply Hsets Hset0 Hheaders Hrows Hin He.
  unfold request_players. rewrite Hreply, Hsets. simpl.
  rewrite Hset0. simpl. rewrite Hheaders, Hrows. simpl.
  exact (player_records_raises _ _ _ _ _ Hin He).
Qed.

Lemma request_players_all_or_nothing_witness :
  exists e',
    request_players
      (sample_world 1000 NoFile
         (Body (JObj [(str_of "resultSets",
                       JArr [JObj [(str_of "headers", sample_headers);
                                   (str_of "rowSet",
                                    JArr (sample_rows ++ [JArr [JNum 7]]))]])])))
    = Raise e'.
Proof.
  apply (request_players_all_or_nothing
           (sample_world 1000 NoFile
              (Body (JObj [(str_of "resultSets",
                            JArr [JObj [(str_of "headers", sample_headers);
                                        (str_of "rowSet",
                                         JArr (sample_rows ++ [JArr [JNum 7]]))]])])))
           (JObj [(str_of "resultSets",
                   JArr [JObj [(str_of "headers", sample_headers);
                               (str_of "rowSet",
                                JArr (sample_rows ++ [JArr [JNum 7]]))]])])
           (JArr [JObj [(str_of "headers", sample_headers);
                        (str_of "rowSet",
                         JArr (sample_rows ++ [JArr [JNum 7]]))]])
           (JObj [(str_of "headers", sample_headers);
                  (str_of "rowSet", JArr (sample_rows ++ [JArr [JNum 7]]))])
           sample_headers (JArr [JNum 7])
           (sample_rows ++ [JArr [JNum 7]]) KeyError);
    try reflexivity.
  simpl. right. right. right. left. reflexivity.
Defined.

(** * Further properties of the corrector *)

Section CorrectorFurther.

Variable U : case_table.
Variable sc : pystr -> pystr -> Z.

Lemma max_by_score_keeps (l : list (pystr * Z)) :
  forall best,
    (forall y, In y l -> snd y <= snd best) -> max_by_score best l = best.
Proof.
  induction l as [|y l IH]; intros best H; simpl; [reflexivity|].
  assert (Hy : (snd best <? snd y) = false)
    by (apply Z.ltb_ge, H; now left).
  rewrite Hy. apply IH. intros z Hz. apply H. now right.
Qed.

Lemma max_by_score_first (l1 l2 : list (pystr * Z)) (x : pystr * Z) :
  forall best,
    snd best < snd x ->
    (forall y, In y l1 -> snd y < snd x) ->
    (forall y, In y l2 -> snd y <= snd x) ->
    max_by_score best (l1 ++ x :: l2) = x.
Proof.
  induction l1 as [|y l1 IH]; intros best Hb H1 H2; simpl.
  - apply Z.ltb_lt in Hb. rewrite Hb. now apply max_by_score_keeps.
  - apply IH; [|intros z Hz; apply H1; now right|exact H2].
    destruct (snd best <? snd y); [apply H1; now left|exact Hb].
Qed.

Lemma extractWithoutOrder_app (query : pystr) (l1 l2 : list pystr) :
  extractWithoutOrder sc query (l1 ++ l2)
  = extractWithoutOrder sc query l1 ++ extractWithoutOrder sc query l2.
Proof. unfold extractWithoutOrder. now rewrite map_app, filter_app. Qed.

(** Ties go to the earliest name: the name returned is the first of the
    roster whose score is maximal, when that score reaches 80. *)
Theorem find_closest_player_name_first_best (query name : pystr)
    (before after : list pystr) :
  80 <= sc query name ->
  (forall c, In c before -> sc query c < sc query name) ->
  (forall c, In c after -> sc query c <= sc query name) ->
  find_closest_player_name sc query (before ++ name :: after) = Ok (Some name).
Proof.
  intros H80 Hbefore Hafter.
  assert (E : extractOne sc query (before ++ name :: after)
              = Some (name, sc query name)).
  { unfold extractOne. rewrite extractWithoutOrder_app.
    change (name :: after) with ([name] ++ after).
    rewrite extractWithoutOrder_app.
    assert (Hn : extractWithoutOrder sc query [name]
                 = [(name, sc query name)]).
    { unfold extractWithoutOrder. simpl.
      assert (H0 : (0 <=? sc query name) = true) by (apply Z.leb_le; lia).
      now rewrite H0. }
    rewrite Hn. simpl app.
    assert (H1 : forall y, In y (extractWithoutOrder sc query before) ->
                           snd y < snd (name, sc query name)).
    { intros y Hy. apply extractWithoutOrder_In in Hy as (Hin & -> & _).
      simpl. now apply Hbefore. }
    assert (H2 : forall y, In y (extractWithoutOrder sc query after) ->
                           snd y <= snd (name, sc query name)).
    { intros y Hy. apply extractWithoutOrder_In in Hy as (Hin & -> & _).
      simpl. now apply Hafter. }
    destruct (extractWithoutOrder sc query before) as [|y l1]; simpl.
    - now rewrite max_by_score_keeps.
    - rewrite (max_by_score_first l1 _ (name, sc query name)); auto.
      + apply H1. now left.
      + intros z Hz. apply H1. now right. }
  unfold find_closest_player_name. rewrite E.
  apply Z.leb_le in H80. now rewrite H80.
Qed.

(** What [find_closest_player_name] does, by cases: it raises
    [TypeError] exactly on the empty roster; a name it returns is in the
    roster, scores at least 80 and no name scores higher; and it returns
    [None] when the roster is not empty and every name scores below 80. *)
Theorem find_closest_player_name_cases (query : pystr) (roster : list pystr) :
  (forall q c, 0 <= sc q c) ->
  match find_closest_player_name sc query roster with
  | Raise e => e = TypeError /\ roster = []
  | Ok (Some name) =>
      In name roster /\ 80 <= sc query name
      /\ forall c, In c roster -> sc query c <= sc query name
  | Ok None => roster <> [] /\ forall c, In c roster -> sc query c < 80
  end.
Proof.
  intros Hsc. unfold find_closest_player_name.
  destruct (extractOne sc query roster) as [[best score]|] eqn:E.
  - apply extractOne_Some in E as (Hb & -> & Hmax).
    destruct (Z.leb_spec 80 (sc query best)).
    + auto.
    + split; [intros ->; contradiction|].
      intros c Hc. specialize (Hmax c Hc). lia.
  - split; [reflexivity|].
    pose proof (extractOne_None sc query roster E) as Hneg.
    destruct roster as [|c r]; [reflexivity|].
    specialize (Hneg c (or_introl eq_refl)). specialize (Hsc query c). lia.
Qed.

Lemma correct_word_Ok_cases (word : pystr) (roster : list pystr) (w : pystr) :
  correct_word U sc word roster = Ok w ->
  w = word
  \/ (str_istitle U word = true /\ In w roster /\ w <> []
      /\ 80 <= sc word w /\ forall c, In c roster -> sc word c <= sc word w).
Proof.
  unfold correct_word, find_closest_player_name.
  destruct (str_istitle U word); [|intros [= <-]; now left].
  destruct (extractOne sc word roster) as [[best score]|] eqn:E;
    [|discriminate].
  apply extractOne_Some in E as (Hb & -> & Hmax).
  destruct (Z.leb_spec 80 (sc word best)); simpl; [|intros [= <-]; now left].
  destruct (str_truthy best) eqn:Ht; intros [= <-]; [right|now left].
  repeat split; auto. now apply str_truthy_true.
Qed.

(** The corrector invents nothing: each word of its output list is the
    word of the text at that place, or, for a title-cased word only, a
    non-empty roster name that scores at least 80 against the word and
    that no roster name outscores. *)
Theorem correct_player_names_words (text : pystr) (roster : list pystr)
    (out : pystr) :
  correct_player_names U sc text roster = Ok out ->
  exists corrected,
    out = str_join [SPACE] corrected
    /\ Forall2
         (fun word w =>
            w = word
            \/ (str_istitle U word = true /\ In w roster /\ w <> []
                /\ 80 <= sc word w
                /\ forall c, In c roster -> sc word c <= sc word w))
         (str_split text) corrected.
Proof.
  unfold correct_player_names.
  destruct (correct_words U sc (str_split text) roster) as [corrected|e] eqn:E;
    [|discriminate].
  simpl. intros [= <-]. exists corrected. split; [reflexivity|].
  pose proof (correct_words_Ok U sc _ _ _ E) as HF. clear E.
  induction HF as [|word w words ws Hw HF IH]; constructor.
  - exact (correct_word_Ok_cases _ _ _ Hw).
  - exact IH.
Qed.

(** The corrector raises exactly when the roster is empty and the text
    has a title-cased word, and what it raises then is [TypeError]. *)
Theorem correct_player_names_raises_iff (text : pystr) (roster : list pystr)
    (e : exn) :
  (forall q c, 0 <= sc q c) ->
  correct_player_names U sc text roster = Raise e
  <-> (e = TypeError /\ roster = []
       /\ existsb (str_istitle U) (str_split text) = true).
Proof.
  intros Hsc. split.
  - intros H. destruct roster as [|c r].
    + destruct (existsb (str_istitle U) (str_split text)) eqn:Ht.
      * unfold correct_player_names in H.
        rewrite (correct_words_empty_roster U sc _ Ht) in H.
        simpl in H. injection H as <-. auto.
      * unfold correct_player_names in H.
        rewrite (correct_words_no_title U sc _ [] Ht) in H. discriminate.
    + destruct (correct_player_names_returns U sc text (c :: r) Hsc)
        as [out Hout]; [discriminate|congruence].
  - intros (-> & -> & Ht). unfold correct_player_names.
    now rewrite (correct_words_empty_roster U sc _ Ht).
Qed.

(** On a cleaned text without title-cased word the corrector finishes
    the cleaner's work: it returns what a second cleaning would. *)
Theorem clean_then_correct_no_title (raw : pystr) (roster : list pystr) :
  existsb (str_istitle U) (str_split (clean_transcript raw)) = false ->
  correct_player_names U sc (clean_transcript raw) roster
  = Ok (clean_transcript (clean_transcript raw)).
Proof.
  intros H. unfold correct_player_names.
  rewrite (correct_words_no_title U sc _ roster H). simpl. f_equal.
  symmetry. apply clean_transcript_ascii_words, ascii_is_ascii_words.
  apply clean_transcript_is_ascii.
Qed.

(** Matching is per word: when both words of "First Last" are
    title-cased and each finds the same name, the name comes out twice. *)
Theorem correct_player_names_doubles_name (first last name : pystr)
    (roster : list pystr) :
  is_word first -> is_word last ->
  str_istitle U first = true -> str_istitle U last = true ->
  name <> [] ->
  find_closest_player_name sc first roster = Ok (Some name) ->
  find_closest_player_name sc last roster = Ok (Some name) ->
  correct_player_names U sc (first ++ SPACE :: last) roster
  = Ok (name ++ SPACE :: name).
Proof.
  intros Hf Hl Tf Tl Hne Ff Fl.
  assert (Hsplit : str_split (first ++ SPACE :: last) = [first; last]).
  { apply (str_split_join [first; last]). auto using Forall_cons, Forall_nil. }
  unfold correct_player_names. rewrite Hsplit. simpl.
  unfold correct_word. rewrite Tf, Tl, Ff, Fl. simpl.
  destruct name; [contradiction|reflexivity].
Qed.

End CorrectorFurther.

Lemma find_closest_player_name_first_best_witness :
  find_closest_player_name shared_word_ratio (str_of "James")
    [str_of "Bronny James"; str_of "LeBron James"]
  = Ok (Some (str_of "Bronny James")).
Proof.
  apply (find_closest_player_name_first_best shared_word_ratio
           (str_of "James") (str_of "Bronny James")
           [] [str_of "LeBron James"]).
  - discriminate.
  - intros c [].
  - intros c [<-|[]]. discriminate.
Defined.

Lemma find_closest_player_name_cases_witness :
  In (str_of "LeBron James") [str_of "Jamal Murray"; str_of "LeBron James"]
  /\ 80 <= shared_word_ratio (str_of "Lebron") (str_of "LeBron James")
  /\ forall c,
      In c [str_of "Jamal Murray"; str_of "LeBron James"] ->
      shared_word_ratio (str_of "Lebron") c
      <= shared_word_ratio (str_of "Lebron") (str_of "LeBron James").
Proof.
  exact (find_closest_player_name_cases shared_word_ratio (str_of "Lebron")
           [str_of "Jamal Murray"; str_of "LeBron James"]
           shared_word_ratio_nonneg).
Defined.

Lemma correct_player_names_words_witness :
  exists corrected,
    str_of "LeBron James scored" = str_join [SPACE] corrected
    /\ Forall2
         (fun word w =>
            w = word
            \/ (str_istitle basic_latin word = true
                /\ In w [str_of "LeBron James"] /\ w <> []
                /\ 80 <= shared_word_ratio word w
                /\ forall c, In c [str_of "LeBron James"] ->
                             shared_word_ratio word c <= shared_word_ratio word w))
         (str_split (str_of "Lebron scored")) corrected.
Proof.
  apply (correct_player_names_words basic_latin shared_word_ratio
           (str_of "Lebron scored") [str_of "LeBron James"]
           (str_of "LeBron James scored")).
  reflexivity.
Defined.

Lemma correct_player_names_raises_iff_witness :
  correct_player_names basic_latin shared_word_ratio
    (str_of "Hello world") [] = Raise TypeError
  <-> (TypeError = TypeError /\ @nil pystr = []
       /\ existsb (str_istitle basic_latin)
                  (str_split (str_of "Hello world")) = true).
Proof.
  apply (correct_player_names_raises_iff basic_latin shared_word_ratio
           (str_of "Hello world") [] TypeError shared_word_ratio_nonneg).
Defined.

Lemma clean_then_correct_no_title_witness :
  existsb (str_istitle basic_latin)
          (str_split (clean_transcript [0x61; 0x20; 0xE9; 0x20; 0x62]%N))
  = false
  /\ correct_player_names basic_latin shared_word_ratio
       (clean_transcript [0x61; 0x20; 0xE9; 0x20; 0x62]%N)
       [str_of "LeBron James"]
     = Ok (str_of "a b").
Proof.
  split; [reflexivity|].
  exact (clean_then_correct_no_title basic_latin shared_word_ratio
           [0x61; 0x20; 0xE9; 0x20; 0x62]%N [str_of "LeBron James"] eq_refl).
Defined.

Lemma correct_player_names_doubles_name_witness :
  correct_player_names basic_latin shared_word_ratio (str_of "Nikola Jokic")
    [str_of "Jamal Murray"; str_of "Nikola Jokic"]
  = Ok (str_of "Nikola Jokic Nikola Jokic").
Proof.
  refine (correct_player_names_doubles_name basic_latin shared_word_ratio
            (str_of "Nikola") (str_of "Jokic") (str_of "Nikola Jokic")
            [str_of "Jamal Murray"; str_of "Nikola Jokic"]
            _ _ eq_refl eq_refl _ eq_refl eq_refl).
  - split; [discriminate|]. repeat (constructor; [reflexivity|]). constructor.
  - split; [discriminate|]. repeat (constructor; [reflexivity|]). constructor.
  - discriminate.
Defined.

(** * Further properties of the cleaner and of the season label *)

Lemma sub_non_ascii_app (a b : pystr) :
  sub_non_ascii (a ++ b) = sub_non_ascii a ++ sub_non_ascii b.
Proof. apply filter_app. Qed.

Lemma sub_non_ascii_no_ws (w : pystr) :
  Forall (fun c => Py_UNICODE_ISSPACE c = false) w ->
  Forall (fun c => Py_UNICODE_ISSPACE c = false) (sub_non_ascii w).
Proof.
  intros H. apply Forall_forall. intros c Hc.
  apply filter_In in Hc as [Hc _]. rewrite Forall_forall in H. auto.
Qed.

Lemma split_scan_join (ws : list pystr) :
  Forall is_word ws ->
  str_split (sub_non_ascii (str_join [SPACE] ws))
  = filter str_truthy (List.map sub_non_ascii ws).
Proof.
  induction 1 as [|w ws [Hne Hw] Hws IH]; [reflexivity|].
  rewrite str_join_cons, sub_non_ascii_app. unfold str_split.
  rewrite (split_scan_app_word _ _ (sub_non_ascii_no_ws w Hw)).
  simpl List.map. simpl filter. destruct ws as [|w2 ws'].
  - simpl. rewrite app_nil_r. now destruct (sub_non_ascii w).
  - change (sub_non_ascii ([SPACE] ++ str_join [SPACE] (w2 :: ws')))
      with (SPACE :: sub_non_ascii (str_join [SPACE] (w2 :: ws'))).
    rewrite (split_scan_ws SPACE _ eq_refl), IH. simpl fst. simpl snd.
    rewrite app_nil_r. now destruct (sub_non_ascii w).
Qed.

(** The words of the cleaned text are the words of the raw text without
    their characters above U+007F, the words that had no other character
    left out. *)
Theorem clean_transcript_words (text : pystr) :
  str_split (clean_transcript text)
  = filter str_truthy (List.map sub_non_ascii (str_split text)).
Proof.
  rewrite clean_transcript_split_join.
  apply split_scan_join, str_split_is_word.
Qed.

Lemma sub_ws_runs_length (s : pystr) :
  forall in_run, (List.length (sub_ws_runs in_run s) <= List.length s)%nat.
Proof.
  induction s as [|c t IH]; intros in_run; simpl; [lia|].
  destruct (Py_UNICODE_ISSPACE c); [destruct in_run|]; simpl;
    specialize (IH true) as H1; specialize (IH false) as H2; lia.
Qed.

Lemma str_strip_length (s : pystr) :
  (List.length (str_strip s) <= List.length s)%nat.
Proof.
  unfold str_strip.
  assert (Hr : forall t, (List.length (str_rstrip t) <= List.length t)%nat).
  { induction t as [|c t IH]; simpl; [lia|].
    destruct (Py_UNICODE_ISSPACE c && forallb Py_UNICODE_ISSPACE t);
      simpl; lia. }
  assert (Hl : (List.length (str_lstrip s) <= List.length s)%nat).
  { induction s as [|c t IH]; simpl; [lia|].
    destruct (Py_UNICODE_ISSPACE c); simpl; lia. }
  specialize (Hr (str_lstrip s)). lia.
Qed.

Lemma str_join_chars (s : pystr) (ws : list pystr) :
  Forall (fun w => Forall (fun c => Py_UNICODE_ISSPACE c = false /\ In c s) w)
         ws ->
  Forall (fun c => c = SPACE \/ (Py_UNICODE_ISSPACE c = false /\ In c s))
         (str_join [SPACE] ws).
Proof.
  induction 1 as [|w ws Hw Hws IH]; [constructor|].
  rewrite str_join_cons. apply Forall_app. split.
  - eapply Forall_impl; [|exact Hw]. simpl. auto.
  - destruct ws; [constructor|]. constructor; [now left|exact IH].
Qed.

(** The cleaner adds nothing: its output is no longer than its input, and
    each character of it is a space or an ASCII character of the input
    that is not whitespace. *)
Theorem clean_transcript_adds_nothing (text : pystr) :
  (List.length (clean_transcript text) <= List.length text)%nat
  /\ Forall (fun c => c = SPACE
                      \/ (In c text /\ Py_UNICODE_ISSPACE c = false
                          /\ (c <= 0x7F)%N))
            (clean_transcript text).
Proof.
  split.
  - unfold clean_transcript, sub_non_ascii.
    pose proof (filter_length_le is_ascii
                  (sub_ws_runs false (str_strip text))) as H1.
    pose proof (sub_ws_runs_length (str_strip text) false) as H2.
    pose proof (str_strip_length text) as H3. lia.
  - rewrite clean_transcript_split_join. apply Forall_forall. intros c Hc.
    unfold sub_non_ascii in Hc. apply filter_In in Hc as [Hc Ha].
    assert (Hj : Forall (fun c => c = SPACE
                           \/ (Py_UNICODE_ISSPACE c = false /\ In c text))
                        (str_join [SPACE] (str_split text))).
    { apply str_join_chars. eapply Forall_impl; [|apply str_split_words].
      simpl. tauto. }
    rewrite Forall_forall in Hj. destruct (Hj c Hc) as [->|[Hws Hin]].
    + now left.
    + right. repeat split; auto. now apply N.leb_le.
Qed.

(** The label does not change within a season: from October of a year to
    September of the next it is the same. *)
Theorem season_label_constant (year autumn spring : Z) :
  10 <= autumn -> spring < 10 ->
  _get_current_season (year + 1) spring = _get_current_season year autumn.
Proof.
  intros Ha Hs. unfold _get_current_season.
  apply Z.leb_le in Ha. rewrite Ha.
  assert (H : (10 <=? spring) = false) by (apply Z.leb_gt; lia).
  rewrite H. now replace (year + 1 - 1) with year by lia.
Qed.

Lemma season_label_constant_witness :
  _get_current_season 2025 3 = _get_current_season 2024 11.
Proof. apply (season_label_constant 2024 11 3); lia. Defined.

Lemma four_chars_four_digits :
  forallb (fun k => four_chars (1000 + Z.of_nat k))
          (seq 0 (Z.to_nat 9000)) = true.
Proof. vm_compute. reflexivity. Qed.

Lemma py_str_int_length (n : Z) :
  1000 <= n <= 9999 -> List.length (py_str_int n) = 4%nat.
Proof.
  intros Hn. pose proof four_chars_four_digits as H.
  rewrite forallb_forall in H. specialize (H (Z.to_nat (n - 1000))).
  replace (1000 + Z.of_nat (Z.to_nat (n - 1000))) with n in H by lia.
  apply Nat.eqb_eq, H, in_seq. lia.
Qed.

(** For four-digit years the label has seven characters and its first
    four, which the fetcher compares with [TO_YEAR], spell the year in
    which the season started: the current year from October on, the year
    before until September. *)
Theorem season_label_start_year (year month : Z) :
  1001 <= year <= 9998 ->
  List.length (_get_current_season year month) = 7%nat
  /\ firstn 4 (_get_current_season year month)
     = py_str_int (if 10 <=? month then year else year - 1).
Proof.
  intros Hy. unfold _get_current_season. destruct (10 <=? month).
  - rewrite (skipn_two_digit_suffix (year + 1)) by lia.
    assert (L : List.length (py_str_int year) = 4%nat)
      by (apply py_str_int_length; lia).
    split.
    + rewrite length_app, L. reflexivity.
    + rewrite firstn_app, L, Nat.sub_diag, firstn_O, app_nil_r.
      rewrite <- L. apply firstn_all.
  - rewrite (skipn_two_digit_suffix year) by lia.
    assert (L : List.length (py_str_int (year - 1)) = 4%nat)
      by (apply py_str_int_length; lia).
    split.
    + rewrite length_app, L. reflexivity.
    + rewrite firstn_app, L, Nat.sub_diag, firstn_O, app_nil_r.
      rewrite <- L. apply firstn_all.
Qed.

Lemma season_label_start_year_witness :
  List.length (_get_current_season 2025 3) = 7%nat
  /\ firstn 4 (_get_current_season 2025 3) = str_of "2024".
Proof. apply (season_label_start_year 2025 3). lia. Defined.

Lemma eq_str_true (v : json) (s : pystr) : eq_str v s = true <-> v = JStr s.
Proof.
  destruct v; simpl; try (split; [discriminate|discriminate]).
  rewrite str_eqb_eq. split; [now intros ->|now intros [= ->]].
Qed.

(** The season filter: a row whose [TO_YEAR] is not the string of the
    label's first four characters gives no record, whatever its other
    fields hold or lack (a numeric [TO_YEAR] never passes); and a row
    gives a record only if its [TO_YEAR] is that string. *)
Theorem player_record_season_filter (season : pystr) (headers player : json)
    (hs ps : list json) (player_dict : list (json * json)) (to_year : json) :
  py_iter headers = Ok hs ->
  py_iter player = Ok ps ->
  dict_of_pairs (combine hs ps) = Ok player_dict ->
  pairs_get (str_of "TO_YEAR") player_dict = Ok to_year ->
  (to_year <> JStr (firstn 4 season) ->
   player_record season headers player = Ok None)
  /\ (forall p, player_record season headers player = Ok (Some p) ->
                to_year = JStr (firstn 4 season)).
Proof.
  intros Hhs Hps Hd Hy. unfold player_record.
  rewrite Hhs. cbn [bind]. rewrite Hps. cbn [bind]. rewrite Hd. cbn [bind].
  rewrite Hy. cbn [bind].
  destruct (eq_str to_year (firstn 4 season)) eqn:E.
  - apply eq_str_true in E. split; [contradiction|auto].
  - split; [reflexivity|discriminate].
Qed.

Lemma player_record_season_filter_witness :
  player_record (str_of "2024-25") sample_headers
    (JArr [JNum 893; JStr (str_of "Michael Jordan"); JNum 2024])
  = Ok None.
Proof.
  refine (proj1 (player_record_season_filter (str_of "2024-25") sample_headers
            (JArr [JNum 893; JStr (str_of "Michael Jordan"); JNum 2024])
            _ _ _ (JNum 2024) eq_refl eq_refl eq_refl eq_refl) _).
  discriminate.
Defined.

(** * The cleaner on words that keep an ASCII character *)

Lemma sub_non_ascii_join (ws : list pystr) :
  sub_non_ascii (str_join [SPACE] ws)
  = str_join [SPACE] (List.map sub_non_ascii ws).
Proof.
  induction ws as [|w ws IH]; [reflexivity|].
  simpl List.map. rewrite !str_join_cons, sub_non_ascii_app.
  destruct ws as [|w2 ws']; [reflexivity|].
  simpl List.map in *. rewrite sub_non_ascii_app, IH. reflexivity.
Qed.

Lemma clean_transcript_join_words (text : pystr) :
  clean_transcript text
  = str_join [SPACE] (List.map sub_non_ascii (str_split text)).
Proof. now rewrite clean_transcript_split_join, sub_non_ascii_join. Qed.

Lemma sub_non_ascii_is_ascii (w : pystr) :
  Forall (fun c => is_ascii c = true) (sub_non_ascii w).
Proof.
  apply Forall_forall. intros c Hc. now apply filter_In in Hc.
Qed.

Lemma cleaned_words (text : pystr) :
  forallb (existsb is_ascii) (str_split text) = true ->
  Forall is_word (List.map sub_non_ascii (str_split text))
  /\ Forall (Forall (fun c => is_ascii c = true))
            (List.map sub_non_ascii (str_split text)).
Proof.
  intros H. rewrite forallb_forall in H.
  pose proof (str_split_is_word text) as Hw. rewrite Forall_forall in Hw.
  split; apply Forall_forall; intros w' Hw';
    apply in_map_iff in Hw' as (w & <- & Hin).
  - split.
    + specialize (H w Hin). apply existsb_exists in H as (c & Hc & Ha).
      intros E. assert (Hf : In c (sub_non_ascii w))
        by (apply filter_In; auto).
      rewrite E in Hf. contradiction.
    + apply sub_non_ascii_no_ws. now destruct (Hw w Hin).
  - apply sub_non_ascii_is_ascii.
Qed.

(** C3 (as amended): [clean_transcript] is idempotent on every string
    each of whose words has at least one ASCII character (so on every
    ASCII string, and on "Jokić scored"): there
    [clean(clean(x)) = clean(x)]. *)
Theorem clean_transcript_idempotent_on_ascii_words (x : pystr) :
  forallb (existsb is_ascii) (str_split x) = true ->
  clean_transcript (clean_transcript x) = clean_transcript x.
Proof.
  intros H. destruct (cleaned_words x H) as [Hw Ha].
  rewrite (clean_transcript_join_words x).
  now apply clean_transcript_fixed.
Qed.

Lemma clean_transcript_idempotent_witness :
  forallb (existsb is_ascii)
          (str_split ([0x4A; 0x6F; 0x6B; 0x69; 0x107]%N ++ str_of " scored "))
  = true
  /\ clean_transcript
       (clean_transcript
          ([0x4A; 0x6F; 0x6B; 0x69; 0x107]%N ++ str_of " scored "))
     = clean_transcript
         ([0x4A; 0x6F; 0x6B; 0x69; 0x107]%N ++ str_of " scored ").
Proof.
  split; [reflexivity|].
  apply (clean_transcript_idempotent_on_ascii_words
           ([0x4A; 0x6F; 0x6B; 0x69; 0x107]%N ++ str_of " scored ")).
  reflexivity.
Defined.

Lemma ascii_not_whitespace (c : codepoint) :
  is_ascii c = true -> Py_UNICODE_ISSPACE c = false ->
  printable_ascii c = true
  \/ (c <= 0x08)%N \/ (0x0E <= c <= 0x1B)%N \/ c = 0x7F%N.
Proof.
  unfold is_ascii, Py_UNICODE_ISSPACE, printable_ascii. intros Ha Hw.
  apply N.leb_le in Ha.
  do 9 (apply orb_false_iff in Hw as [Hw _]).
  apply orb_false_iff in Hw as [H1 H2].
  rewrite andb_false_iff, !N.leb_gt in H1, H2.
  assert (Hc : (c <= 0x08 \/ 0x0E <= c <= 0x1B \/ c = 0x7F
                \/ 0x21 <= c <= 0x7E)%N) by lia.
  destruct Hc as [Hc|[Hc|[Hc|Hc]]]; auto.
  left. apply andb_true_iff. rewrite !N.leb_le. lia.
Qed.

(** C8 (as amended): every character of the cleaner's output is a
    printable ASCII character or one of the control characters that are
    not whitespace (U+0000-U+0008, U+000E-U+001B, U+007F); and when each
    word of the input has at least one ASCII character, the output has
    no whitespace at either end and no two adjacent whitespace
    characters. *)
Theorem clean_transcript_output_shape (text : pystr) :
  Forall (fun c => printable_ascii c = true
                   \/ (c <= 0x08)%N \/ (0x0E <= c <= 0x1B)%N \/ c = 0x7F%N)
         (clean_transcript text)
  /\ (forallb (existsb is_ascii) (str_split text) = true ->
      starts_with_ws (clean_transcript text) = false
      /\ ends_with_ws (clean_transcript text) = false
      /\ has_run Py_UNICODE_ISSPACE (clean_transcript text) = false).
Proof.
  split.
  - rewrite clean_transcript_split_join. apply Forall_forall. intros c Hc.
    unfold sub_non_ascii in Hc. apply filter_In in Hc as [Hc Ha].
    assert (Hj : Forall (fun c => c = SPACE
                           \/ (Py_UNICODE_ISSPACE c = false /\ In c text))
                        (str_join [SPACE] (str_split text))).
    { apply str_join_chars. eapply Forall_impl; [|apply str_split_words].
      simpl. tauto. }
    rewrite Forall_forall in Hj. destruct (Hj c Hc) as [->|[Hws _]].
    + now left.
    + now apply ascii_not_whitespace.
  - intros H. destruct (cleaned_words text H) as [Hw _].
    rewrite clean_transcript_join_words.
    apply str_join_tidy; [auto|].
    eapply Forall_impl; [|exact Hw].
    intros w Hword. apply is_word_tidy; auto.
Qed.

Lemma clean_transcript_output_shape_witness :
  forallb (existsb is_ascii)
          (str_split ([0x4A; 0x6F; 0x6B; 0x69; 0x107]%N ++ str_of " scored "))
  = true
  /\ clean_transcript ([0x4A; 0x6F; 0x6B; 0x69; 0x107]%N ++ str_of " scored ")
     = str_of "Joki scored"
  /\ starts_with_ws (str_of "Joki scored") = false
  /\ ends_with_ws (str_of "Joki scored") = false
  /\ has_run Py_UNICODE_ISSPACE (str_of "Joki scored") = false.
Proof.
  split; [reflexivity|]. split; [reflexivity|].
  exact (proj2 (clean_transcript_output_shape
                  ([0x4A; 0x6F; 0x6B; 0x69; 0x107]%N ++ str_of " scored "))
               eq_refl).
Defined.

(** * The threshold of the corrector *)

Section CorrectorThreshold.

Variable U : case_table.
Variable sc : pystr -> pystr -> Z.

Lemma extractOne_first_best (query : pystr) (roster before : list pystr)
    (best : pystr) (after : list pystr) :
  first_best (sc query) roster before best after ->
  0 <= sc query best ->
  extractOne sc query roster = Some (best, sc query best).
Proof.
  intros (-> & Hbefore & Hafter) H0. unfold extractOne.
  rewrite extractWithoutOrder_app.
  change (best :: after) with ([best] ++ after).
  rewrite extractWithoutOrder_app.
  assert (Hn : extractWithoutOrder sc query [best] = [(best, sc query best)]).
  { unfold extractWithoutOrder. simpl.
    apply Z.leb_le in H0. now rewrite H0. }
  rewrite Hn. simpl app.
  assert (H1 : forall y, In y (extractWithoutOrder sc query before) ->
                         snd y < snd (best, sc query best)).
  { intros y Hy. apply extractWithoutOrder_In in Hy as (Hin & -> & _).
    simpl. now apply Hbefore. }
  assert (H2 : forall y, In y (extractWithoutOrder sc query after) ->
                         snd y <= snd (best, sc query best)).
  { intros y Hy. apply extractWithoutOrder_In in Hy as (Hin & -> & _).
    simpl. now apply Hafter. }
  destruct (extractWithoutOrder sc query before) as [|y l1]; simpl.
  - now rewrite max_by_score_keeps.
  - rewrite (max_by_score_first l1 _ (best, sc query best)); auto.
    + apply H1. now left.
    + intros z Hz. apply H1. now right.
Qed.

Lemma correct_word_first_best (word : pystr) (roster before : list pystr)
    (best : pystr) (after : list pystr) :
  str_istitle U word = true ->
  first_best (sc word) roster before best after ->
  0 <= sc word best ->
  correct_word U sc word roster
  = Ok (if (80 <=? sc word best) && str_truthy best then best else word).
Proof.
  intros Ht Hfb H0. unfold correct_word, find_closest_player_name.
  rewrite Ht, (extractOne_first_best word roster before best after Hfb H0).
  destruct (80 <=? sc word best); simpl; [|reflexivity].
  now destruct (str_truthy best).
Qed.

(** A roster that is not empty has a first name of maximal score. *)
Lemma first_best_exists (score : pystr -> Z) (roster : list pystr) :
  roster <> [] ->
  exists before best after, first_best score roster before best after.
Proof.
  induction roster as [|c r IH]; [contradiction|]. intros _.
  destruct r as [|c' r'].
  - exists [], c, []. repeat split; intros x [].
  - destruct IH as (before & best & after & E & Hb & Ha); [discriminate|].
    destruct (Z.lt_ge_cases (score c) (score best)) as [Hlt|Hge].
    + exists (c :: before), best, after. rewrite E. repeat split.
      * intros x [<-|Hx]; auto.
      * exact Ha.
    + exists [], c, (c' :: r'). repeat split; [intros x []|].
      intros x Hx. rewrite E in Hx. apply in_app_or in Hx as [Hx|[<-|Hx]].
      * specialize (Hb x Hx). lia.
      * lia.
      * specialize (Ha x Hx). lia.
Qed.

(** C1 (as amended): with a roster that is not empty (and scores from 0
    up), the corrector returns the words of the text joined by single
    spaces in which every title-cased word has been replaced by the first
    roster name of maximal score when that score is at least 80 and the
    name is not the empty string, and kept otherwise, in particular when
    the best score is below 80.  So "Lebron" becomes "LeBron James" with
    a roster in which "LeBron James" is the first name of maximal score
    for it and that score reaches 80. *)
Theorem correct_player_names_threshold (text : pystr) (roster : list pystr) :
  (forall q c, 0 <= sc q c) -> roster <> [] ->
  exists corrected,
    correct_player_names U sc text roster = Ok (str_join [SPACE] corrected)
    /\ Forall2
         (fun word w =>
            str_istitle U word = true ->
            (exists before best after,
                first_best (sc word) roster before best after)
            /\ forall before best after,
                first_best (sc word) roster before best after ->
                w = if (80 <=? sc word best) && str_truthy best
                    then best else word)
         (str_split text) corrected.
Proof.
  intros Hsc Hne.
  destruct (correct_player_names_returns U sc text roster Hsc Hne)
    as [out Hout].
  unfold correct_player_names in *.
  destruct (correct_words U sc (str_split text) roster) as [corrected|e] eqn:E;
    [|discriminate].
  exists corrected. split; [reflexivity|].
  pose proof (correct_words_Ok U sc _ _ _ E) as HF. clear E Hout.
  induction HF as [|word w words ws Hw HF IH]; constructor; [|exact IH].
  intros Ht. split; [now apply first_best_exists|].
  intros before best after Hfb.
  rewrite (correct_word_first_best word roster before best after Ht Hfb
             (Hsc word best)) in Hw.
  now injection Hw as <-.
Qed.

End CorrectorThreshold.

Lemma correct_player_names_threshold_witness :
  correct_player_names basic_latin shared_word_ratio (str_of "Lebron scored")
    [str_of "Jamal Murray"; str_of "LeBron James"]
  = Ok (str_of "LeBron James scored")
  /\ exists corrected,
      correct_player_names basic_latin shared_word_ratio
        (str_of "Lebron scored")
        [str_of "Jamal Murray"; str_of "LeBron James"]
      = Ok (str_join [SPACE] corrected)
      /\ Forall2
           (fun word w =>
              str_istitle basic_latin word = true ->
              (exists before best after,
                  first_best (shared_word_ratio word)
                    [str_of "Jamal Murray"; str_of "LeBron James"]
                    before best after)
              /\ forall before best after,
                  first_best (shared_word_ratio word)
                    [str_of "Jamal Murray"; str_of "LeBron James"]
                    before best after ->
                  w = if (80 <=? shared_word_ratio word best)
                         && str_truthy best
                      then best else word)
           (str_split (str_of "Lebron scored")) corrected.
Proof.
  split; [reflexivity|].
  apply (correct_player_names_threshold basic_latin shared_word_ratio
           (str_of "Lebron scored")
           [str_of "Jamal Murray"; str_of "LeBron James"]
           shared_word_ratio_nonneg).
  discriminate.
Defined.

(** C1 fails as stated: of two names that both score highest the first
    is taken, so a roster that contains "LeBron James" may turn "Lebron"
    into another name; and a name that is the empty string is never put
    in, whatever it scores. *)
Lemma correct_player_names_tie_and_empty_name :
  In (str_of "LeBron James") [str_of "LeBron Aaa"; str_of "LeBron James"]
  /\ shared_word_ratio (str_of "Lebron") (str_of "LeBron Aaa") = 100
  /\ shared_word_ratio (str_of "Lebron") (str_of "LeBron James") = 100
  /\ correct_player_names basic_latin shared_word_ratio (str_of "Lebron")
       [str_of "LeBron Aaa"; str_of "LeBron James"]
     = Ok (str_of "LeBron Aaa")
  /\ correct_player_names basic_latin (fun _ _ => 100) (str_of "Lebron") [[]]
     = Ok (str_of "Lebron").
Proof. repeat split. simpl. auto. Qed.
